(** * Shallow embedding of the core of project-understanding (pui)

    Modules follow the Python sources under
    [skills/project-understanding/scripts/lib]:
    - [PyStr]  : the few Python [str] operations the code uses;
    - [Tokens] : [tokens.py] (estimation and section-aware truncation);
    - [Db]     : [db.py] (schema version check, the edges table, [add_edge]);
    - [Graph]  : [graph.py] ([callers], [callees], [_extract_confidence])
                 on a fresh [GraphEngine];
    - [Engine] : [graph.py] the same queries through [_symbol_cache];
    - [Indexer]: [indexer.py] ([run], [should_reindex], [index_file]);
    - [Parser] : [parser.py] (call-site confidence);
    - [Zoom]   : [packs.py] ([ZoomPack.to_text], [ZoomPackGenerator._truncate_pack]);
    - [DbMore] : [db.py] ([get_meta], [add_callsite]);
    - [TestFiles]: [graph.py] ([_filter_test_files]);
    - [Impact] : [packs.py] ([ImpactPack.to_text], [ImpactPackGenerator._truncate_pack]).

    The modules [Ex...] at the end state and prove properties of the
    rest of this code: its edge cases, the invariants it keeps and how
    its operations compose.

    Strings are modelled as Rocq [string]s of ASCII characters; Python
    floats that only hold exact decimal constants (confidences) are
    modelled as rationals [Q], and their products (path confidences) as
    exact products: Python rounds each float product (0.9 * 0.8 gives
    0.7200000000000001), so a comparison with [min_conf] that falls
    exactly on such a product can come out differently in Python;
    [int(x / 3.5)] on a non-negative integer is written [2 * x / 7]
    (floor division), which is what the float computation gives for
    every length a string can have. *)

From Stdlib Require Import ZArith QArith String Ascii List Bool Lia.
From Stdlib Require Import Numbers.DecimalString Sorting.Sorted Sorting.Permutation.
Import ListNotations.
Open Scope string_scope.

(** ** Python string helpers *)
Module PyStr.

Definition NL : string := String (ascii_of_nat 10) EmptyString.

(** [str.isspace] on ASCII: \t \n \v \f \r, the separators 0x1c-0x1f and ' '. *)
Definition is_space (c : ascii) : bool :=
  let n := nat_of_ascii c in
  ((9 <=? n)%nat && (n <=? 13)%nat) || ((28 <=? n)%nat && (n <=? 32)%nat).

Fixpoint drop_spaces (l : list ascii) : list ascii :=
  match l with
  | [] => []
  | c :: r => if is_space c then drop_spaces r else l
  end.

(** [str.strip()] *)
Definition strip (s : string) : string :=
  string_of_list_ascii
    (rev (drop_spaces (rev (drop_spaces (list_ascii_of_string s))))).

(** [len(s)] *)
Definition len (s : string) : Z := Z.of_nat (String.length s).

(** [s[:k]] *)
Definition slice_to (s : string) (k : Z) : string :=
  if (0 <=? k)%Z then substring 0 (Z.to_nat k) s
  else substring 0 (Z.to_nat (len s + k)) s.

(** [s.find(sub)]: first index, or -1. *)
Fixpoint find_from (sub s : string) (i : Z) : Z :=
  if prefix sub s then i else
  match s with
  | EmptyString => (-1)%Z
  | String _ r => find_from sub r (i + 1)
  end.
Definition find (s sub : string) : Z := find_from sub s 0.

(** [s.rfind(sub)]: last index, or -1. *)
Fixpoint rfind_from (sub s : string) (i acc : Z) : Z :=
  let acc' := if prefix sub s then i else acc in
  match s with
  | EmptyString => acc'
  | String _ r => rfind_from sub r (i + 1) acc'
  end.
Definition rfind (s sub : string) : Z := rfind_from sub s 0 (-1).

(** [s.startswith(p)] *)
Definition startswith (s p : string) : bool := prefix p s.

(** [sep.join(l)] *)
Fixpoint join (sep : string) (l : list string) : string :=
  match l with
  | [] => ""
  | [x] => x
  | x :: r => x ++ sep ++ join sep r
  end.

(** [s.split(sep_char)] for a one-character separator. *)
Fixpoint split_char_aux (c : ascii) (l : list ascii) (cur : list ascii)
  : list string :=
  match l with
  | [] => [string_of_list_ascii (rev cur)]
  | d :: r =>
      if Ascii.eqb d c then string_of_list_ascii (rev cur) :: split_char_aux c r []
      else split_char_aux c r (d :: cur)
  end.
Definition split_char (s : string) (c : ascii) : list string :=
  split_char_aux c (list_ascii_of_string s) [].

(** [s.split(sep_char, 1)] *)
Fixpoint split1_aux (c : ascii) (l : list ascii) (cur : list ascii)
  : list string :=
  match l with
  | [] => [string_of_list_ascii (rev cur)]
  | d :: r =>
      if Ascii.eqb d c then [string_of_list_ascii (rev cur); string_of_list_ascii r]
      else split1_aux c r (d :: cur)
  end.
Definition split1 (s : string) (c : ascii) : list string :=
  split1_aux c (list_ascii_of_string s) [].

(** f-string rendering of an [int]. *)
Definition z_str (z : Z) : string := NilZero.string_of_int (Z.to_int z).

(** Python's [list.sort(key=...)] / [sorted(..., key=...)] for a key that
    is compared by a boolean strict order [lt]: a stable insertion sort. *)
Section StableSort.
Context {A K : Type} (key : A -> K) (lt : K -> K -> bool).

Fixpoint insert_by (x : A) (l : list A) : list A :=
  match l with
  | [] => [x]
  | y :: r => if lt (key x) (key y) then x :: y :: r else y :: insert_by x r
  end.

Definition sort_by (l : list A) : list A :=
  fold_left (fun acc x => insert_by x acc) l [].
End StableSort.

(** Strict comparison of rationals. *)
Definition Qlt_bool (a b : Q) : bool := negb (Qle_bool b a).

(** Python's [max(a, b)] and [min(a, b)]: the first argument unless the
    second is strictly larger (smaller). *)
Definition py_max (a b : Q) : Q := if Qlt_bool a b then b else a.
Definition py_min (a b : Q) : Q := if Qlt_bool b a then b else a.

End PyStr.

(** ** tokens.py *)
Module Tokens.
Import PyStr.
Local Open Scope Z_scope.

(** [estimate_tokens]: [max(1, int(len(text) / chars_per_tok))], with
    [CHARS_PER_TOKEN = 3.5] and [CODE_CHARS_PER_TOKEN = 3.0]. *)
Definition estimate_tokens (text : string) (is_code : bool) : Z :=
  if String.eqb text "" then 0
  else Z.max 1 (if is_code then len text / 3 else (2 * len text) / 7).

(** [int(budget_tokens * chars_per_tok)] ([int] truncates toward zero). *)
Definition target_chars (budget : Z) (is_code : bool) : Z :=
  if is_code then budget * 3 else Z.quot (budget * 7) 2.

Record Section := mkSection { header : string; content : string; priority : Z }.

(** [Section.total_text] *)
Definition total_text (s : Section) : string := header s ++ NL ++ content s.

(** [Section.token_count] *)
Definition token_count (s : Section) (is_code : bool) : Z :=
  estimate_tokens (total_text s) is_code.

(** The regex [\n(?=#{1,3}[^#])] matches a newline followed by one to
    three ['#'] and then a character other than ['#']. *)
Fixpoint leading_hashes (l : list ascii) : nat :=
  match l with
  | c :: r => if Ascii.eqb c "#" then S (leading_hashes r) else O
  | [] => O
  end.

Definition header_ahead (l : list ascii) : bool :=
  let n := leading_hashes l in
  (1 <=? n)%nat && (n <=? 3)%nat && (n <? List.length l)%nat.

(** [re.split(pattern, s)]: the matched newlines are removed. *)
Fixpoint split_headers_aux (l cur : list ascii) : list string :=
  match l with
  | [] => [string_of_list_ascii (rev cur)]
  | c :: r =>
      if Ascii.eqb c (ascii_of_nat 10) && header_ahead r
      then string_of_list_ascii (rev cur) :: split_headers_aux r []
      else split_headers_aux r (c :: cur)
  end.

Definition split_headers (s : string) : list string :=
  split_headers_aux (list_ascii_of_string s) [].

(** Body of the loop of [parse_sections] for one part. *)
Definition section_of_part (part0 : string) : option Section :=
  let part := strip part0 in
  if String.eqb part "" then None else
  let lines := split1 part (ascii_of_nat 10) in
  let hdr := strip (hd "" lines) in
  let cnt := match lines with _ :: c :: _ => c | _ => "" end in
  let prio :=
    if startswith hdr "# " then 10
    else if startswith hdr "## " then 5
    else if startswith hdr "### " then 3
    else 0 in
  Some (mkSection hdr cnt prio).

(** [parse_sections] *)
Definition parse_sections (text : string) : list Section :=
  flat_map (fun p => match section_of_part p with Some s => [s] | None => [] end)
           (split_headers (NL ++ text)).

(** [_truncate_section] *)
Definition truncate_section (section : Section) (budget : Z) (is_code : bool)
  : option Section :=
  let header_tokens := estimate_tokens (header section) is_code in
  if budget <=? header_tokens then None else
  let content_budget := budget - header_tokens in
  let tc := target_chars content_budget is_code in
  let c0 := slice_to (content section) tc in
  let last_para := rfind c0 (NL ++ NL) in
  let last_line := rfind c0 NL in
  (* [last_para > len(content) * 0.6], [last_line > len(content) * 0.8] *)
  let c1 := if 6 * len c0 <? 10 * last_para then slice_to c0 last_para
            else if 8 * len c0 <? 10 * last_line then slice_to c0 last_line
            else c0 in
  if negb (String.eqb (strip c1) "")
  then Some (mkSection (header section)
                       (c1 ++ NL ++ NL ++ "[... more available via zoom]")
                       (priority section))
  else None.

(** [_simple_truncate] *)
Definition simple_truncate (text : string) (budget : Z) (is_code : bool) : string :=
  let tc := target_chars budget is_code in
  if len text <=? tc then text else
  let t0 := slice_to text tc in
  let last_para := rfind t0 (NL ++ NL) in
  let last_line := rfind t0 NL in
  let last_space := rfind t0 " " in
  (* [> target_chars * 0.7], [* 0.8], [* 0.9] *)
  let t1 := if 7 * tc <? 10 * last_para then slice_to t0 last_para
            else if 8 * tc <? 10 * last_line then slice_to t0 last_line
            else if 9 * tc <? 10 * last_space then slice_to t0 last_space
            else t0 in
  t1 ++ NL ++ NL ++ "---" ++ NL ++ "[Content truncated - more available via zoom]".

(** The [for section in sections] loop that keeps sections until the
    budget is exhausted. *)
Fixpoint keep_sections (secs : list Section) (budget used : Z) (is_code : bool)
  : list Section :=
  match secs with
  | [] => []
  | s :: rest =>
      let st := token_count s is_code in
      if used + st <=? budget then s :: keep_sections rest budget (used + st) is_code
      else
        let remaining := budget - used in
        if 50 <? remaining then
          match truncate_section s remaining is_code with
          | Some p => [p]
          | None => []
          end
        else []
  end.

(** [truncate_to_budget] *)
Definition truncate_to_budget (text : string) (budget : Z)
  (is_code preserve_priority : bool) : string :=
  if String.eqb text "" then "" else
  let current := estimate_tokens text is_code in
  if current <=? budget then text else
  let sections := parse_sections text in
  match sections with
  | [] => simple_truncate text budget is_code
  | _ =>
      let sorted := if preserve_priority
                    then sort_by (fun s => - priority s) Z.ltb sections
                    else sections in
      let kept := keep_sections sorted budget 0 is_code in
      let kept' := sort_by (fun s => find text (header s)) Z.ltb kept in
      let result := join (NL ++ NL) (map total_text kept') in
      if estimate_tokens result is_code <? current then
        let truncated_count := Z.of_nat (List.length sections) - Z.of_nat (List.length kept') in
        if 0 <? truncated_count
        then result ++ NL ++ NL ++ "---" ++ NL ++ "[" ++ z_str truncated_count
                    ++ " more sections available via zoom]"
        else result
      else result
  end.

End Tokens.

(** ** db.py *)
Module Db.
Import PyStr.
Local Open Scope Z_scope.

(** [SCHEMA_VERSION] *)
Definition SCHEMA_VERSION : Z := 1.

(** Values held in an edge's JSON metadata object, as [json.loads] gives
    them back: numbers, strings, [true]/[false], [null], arrays and
    objects. *)
#[warnings="-register-all"]
Inductive MetaVal :=
| MNum (q : Q) | MStr (s : string) | MBool (b : bool) | MNull
| MList (l : list MetaVal) | MDict (d : list (string * MetaVal)).
Definition Metadata := list (string * MetaVal).

Record FileRow := mkFileRow {
  f_id : Z; f_path : string; f_mtime : Z; f_size : Z;
  f_content_hash : string; f_indexed_at : Z; f_language : option string }.

Record SymbolRow := mkSymbolRow {
  s_id : Z; s_file_id : Z; s_name : string; s_kind : string;
  s_line_start : Z; s_line_end : option Z;
  s_column_start : option Z; s_column_end : option Z;
  s_signature : option string; s_docstring : option string;
  s_parent_id : option Z }.

Record EdgeRow := mkEdgeRow {
  e_id : Z; e_source_id : Z; e_target_id : Z; e_kind : string;
  e_file_id : Z; e_metadata : option Metadata }.

Record CallsiteRow := mkCallsiteRow {
  c_id : Z; c_edge_id : Z; c_line : Z; c_column : option Z; c_context : option string }.

(** The database: one list per table in rowid order, the [meta] table, and
    the AUTOINCREMENT counters of [sqlite_sequence]. Batching only decides
    when SQLite commits and is not modelled. *)
Record Store := mkStore {
  files : list FileRow; symbols : list SymbolRow; edges : list EdgeRow;
  callsites : list CallsiteRow; meta : list (string * string);
  seq_files : Z; seq_symbols : Z; seq_edges : Z; seq_callsites : Z }.

Definition empty_store : Store := mkStore [] [] [] [] [] 0 0 0 0.

(** Columns of the [edges] table as created by [CREATE_TABLES_SQL]. *)
Definition edges_columns : list string :=
  ["id"; "source_id"; "target_id"; "kind"; "file_id"; "metadata"].

Inductive DbError :=
| OperationalError (msg : string)
| ValueError (msg : string)
| IntegrityError (msg : string).

(** Outcome of a database call: a value and the new store, or a raised error. *)
Inductive Res (A : Type) := Ok (a : A) (st : Store) | Err (e : DbError).
Arguments Ok {A}. Arguments Err {A}.

Definition with_files st fs := mkStore fs (symbols st) (edges st) (callsites st) (meta st)
  (seq_files st) (seq_symbols st) (seq_edges st) (seq_callsites st).
Definition with_meta st m := mkStore (files st) (symbols st) (edges st) (callsites st) m
  (seq_files st) (seq_symbols st) (seq_edges st) (seq_callsites st).

(** [SELECT value FROM meta WHERE key = ?] *)
Fixpoint meta_lookup (k : string) (m : list (string * string)) : option string :=
  match m with
  | [] => None
  | (k', v) :: r => if String.eqb k k' then Some v else meta_lookup k r
  end.

(** [_set_meta]: [INSERT OR REPLACE INTO meta]. *)
Definition set_meta (k v : string) (st : Store) : Store :=
  with_meta st (filter (fun kv => negb (String.eqb (fst kv) k)) (meta st) ++ [(k, v)])%list.

(** Whitespace that [int()] skips around the number: [str.isspace] on
    ASCII (space, tab to carriage return, and the separators 28 to 31). *)
Definition py_space (c : ascii) : bool :=
  let n := nat_of_ascii c in
  ((n =? 32) || ((9 <=? n) && (n <=? 13)) || ((28 <=? n) && (n <=? 31)))%nat.

Fixpoint drop_space (l : list ascii) : list ascii :=
  match l with c :: r => if py_space c then drop_space r else l | [] => [] end.

Definition digit_val (c : ascii) : option Z :=
  let n := nat_of_ascii c in
  if ((48 <=? n) && (n <=? 57))%nat then Some (Z.of_nat n - 48) else None.

(** Digits with single underscores between them; the value read so far
    [acc], the number of digits [nd], and whether the last character was
    an underscore. *)
Fixpoint read_digits (l : list ascii) (acc : Z) (nd : nat) (us : bool) : option (Z * nat) :=
  match l with
  | [] => if us then None else Some (acc, nd)
  | c :: r =>
      if Ascii.eqb c "_" then (if us then None else read_digits r acc nd true)
      else match digit_val c with
           | Some d => read_digits r (10 * acc + d) (S nd) false
           | None => None
           end
  end.

(** Python's [int(s)] (base 10) on an ASCII string: surrounding
    whitespace, an optional sign, then at least one digit, with single
    underscores allowed between digits; more than 4300 digits exceed
    [sys.get_int_max_str_digits()] and raise [ValueError] too. *)
Definition py_int (s : string) : option Z :=
  let l := rev (drop_space (rev (drop_space (list_ascii_of_string s)))) in
  let '(sign, body) := match l with
                       | c :: r => if Ascii.eqb c "-" then (-1, r)
                                   else if Ascii.eqb c "+" then (1, r) else (1, l)
                       | [] => (1, l)
                       end in
  match body with
  | c :: _ =>
      match digit_val c with
      | None => None
      | Some _ => match read_digits body 0 0 false with
                  | Some (v, nd) => if (4300 <? nd)%nat then None else Some (sign * v)
                  | None => None
                  end
      end
  | [] => None
  end.

(** [_get_schema_version] *)
Definition get_schema_version (st : Store) : Res Z :=
  match meta_lookup "schema_version" (meta st) with
  | None => Ok 0 st
  | Some v => match py_int v with
              | Some n => Ok n st
              | None => Err (ValueError "invalid literal for int()")
              end
  end.

(** [_migrate_schema]: only rewrites the version number. *)
Definition migrate_schema (from_version to_version now : Z) (st : Store) : Store :=
  set_meta "migrated_at" (z_str now) (set_meta "schema_version" (z_str to_version) st).

(** [_init_schema] (the [CREATE ... IF NOT EXISTS] scripts leave an
    existing database unchanged). *)
Definition init_schema (now : Z) (st : Store) : Res unit :=
  match get_schema_version st with
  | Err e => Err e
  | Ok current_version st =>
      if current_version =? 0 then
        Ok tt (set_meta "created_at" (z_str now)
                 (set_meta "schema_version" (z_str SCHEMA_VERSION) st))
      else if negb (current_version =? SCHEMA_VERSION) then
        Ok tt (migrate_schema current_version SCHEMA_VERSION now st)
      else Ok tt st
  end.

(** [connect] *)
Definition connect (now : Z) (st : Store) : Res unit := init_schema now st.

(** *** File operations *)

(** [get_file]: [SELECT * FROM files WHERE path = ?]. *)
Definition get_file (path : string) (st : Store) : option FileRow :=
  List.find (fun f => String.eqb (f_path f) path) (files st).

Definition get_file_by_id (fid : Z) (st : Store) : option FileRow :=
  List.find (fun f => f_id f =? fid) (files st).

(** [add_file]: [INSERT ... ON CONFLICT(path) DO UPDATE ... RETURNING id]. *)
Definition add_file (path : string) (mtime size : Z) (content_hash : string)
  (language : option string) (now : Z) (st : Store) : Z * Store :=
  match get_file path st with
  | Some f =>
      (* the new rowid is drawn before the conflict turns the insert into
         an update, so the AUTOINCREMENT counter still advances *)
      (f_id f,
       mkStore (map (fun g => if String.eqb (f_path g) path
                              then mkFileRow (f_id g) path mtime size content_hash now language
                              else g) (files st))
               (symbols st) (edges st) (callsites st) (meta st)
               (seq_files st + 1) (seq_symbols st) (seq_edges st) (seq_callsites st))
  | None =>
      let id := seq_files st + 1 in
      (id, mkStore (files st ++ [mkFileRow id path mtime size content_hash now language])%list
                   (symbols st) (edges st) (callsites st) (meta st)
                   id (seq_symbols st) (seq_edges st) (seq_callsites st))
  end.

(** *** ON DELETE CASCADE *)

Definition memZ (x : Z) (l : list Z) : bool := existsb (Z.eqb x) l.

(** Symbols removed with the given files and symbols, closing under the
    [parent_id] cascade. *)
Fixpoint dead_symbols_iter (n : nat) (syms : list SymbolRow) (dead : list Z) : list Z :=
  match n with
  | O => dead
  | S k =>
      let more := map s_id (filter (fun s => negb (memZ (s_id s) dead) &&
                                   match s_parent_id s with Some p => memZ p dead | None => false end) syms) in
      match more with
      | [] => dead
      | _ => dead_symbols_iter k syms (dead ++ more)%list
      end
  end.

(** Delete the given files and symbols and everything that references them. *)
Definition cascade (dead_files dead_syms0 : list Z) (st : Store) : Store :=
  let dead_syms := dead_symbols_iter (List.length (symbols st)) (symbols st)
                     (dead_syms0 ++ map s_id (filter (fun s => memZ (s_file_id s) dead_files) (symbols st)))%list in
  let dead_edges := map e_id (filter (fun e => memZ (e_file_id e) dead_files || memZ (e_source_id e) dead_syms
                                               || memZ (e_target_id e) dead_syms) (edges st)) in
  mkStore (filter (fun f => negb (memZ (f_id f) dead_files)) (files st))
          (filter (fun s => negb (memZ (s_id s) dead_syms)) (symbols st))
          (filter (fun e => negb (memZ (e_id e) dead_edges)) (edges st))
          (filter (fun c => negb (memZ (c_edge_id c) dead_edges)) (callsites st))
          (meta st) (seq_files st) (seq_symbols st) (seq_edges st) (seq_callsites st).

(** [delete_file] *)
Definition delete_file (path : string) (st : Store) : bool * Store :=
  let dead := map f_id (filter (fun f => String.eqb (f_path f) path) (files st)) in
  (match dead with [] => false | _ => true end, cascade dead [] st).

(** [get_all_files] *)
Definition get_all_files (st : Store) : list FileRow := files st.

(** *** Symbol operations *)

(** [add_symbol]; the foreign keys on [file_id] and on [parent_id] are
    enforced (a row may name itself as its parent). *)
Definition add_symbol (file_id : Z) (name kind : string) (line_start : Z)
  (line_end column_start column_end : option Z)
  (signature docstring : option string) (parent_id : option Z) (st : Store)
  : Res Z :=
  let id := seq_symbols st + 1 in
  let parent_ok := match parent_id with
                   | None => true
                   | Some p => (p =? id) || existsb (fun s => s_id s =? p) (symbols st)
                   end in
  match get_file_by_id file_id st with
  | None => Err (IntegrityError "FOREIGN KEY constraint failed")
  | Some _ =>
      if negb parent_ok then Err (IntegrityError "FOREIGN KEY constraint failed") else
      Ok id (mkStore (files st)
               (symbols st ++ [mkSymbolRow id file_id name kind line_start line_end
                                 column_start column_end signature docstring parent_id])%list
               (edges st) (callsites st) (meta st)
               (seq_files st) id (seq_edges st) (seq_callsites st))
  end.

(** [get_symbols_in_file] (the [ORDER BY line_start] does not matter to
    the callers modelled here). *)
Definition get_symbols_in_file (file_id : Z) (st : Store) : list SymbolRow :=
  filter (fun s => s_file_id s =? file_id) (symbols st).

(** [delete_symbols_in_file] *)
Definition delete_symbols_in_file (file_id : Z) (st : Store) : Z * Store :=
  let dead := map s_id (get_symbols_in_file file_id st) in
  (Z.of_nat (List.length dead), cascade [] dead st).

(** *** Edge operations *)

(** [SELECT id FROM edges WHERE source_id = ? AND target_id = ? AND kind = ?
    AND file_id = ? LIMIT 1] *)
Definition find_edge (source_id target_id : Z) (kind : string) (file_id : Z)
  (st : Store) : option EdgeRow :=
  List.find (fun e => (e_source_id e =? source_id) && (e_target_id e =? target_id)
                      && String.eqb (e_kind e) kind && (e_file_id e =? file_id)) (edges st).

(** [INSERT INTO edges (cols) VALUES (...) RETURNING id]: SQLite refuses to
    prepare a statement naming a column the table does not have. *)
Definition insert_edge (cols : list string) (source_id target_id : Z) (kind : string)
  (file_id : Z) (metadata : option Metadata) (st : Store) : Res Z :=
  match List.find (fun c => negb (existsb (String.eqb c) edges_columns)) cols with
  | Some c => Err (OperationalError ("table edges has no column named " ++ c))
  | None =>
      let id := seq_edges st + 1 in
      Ok id (mkStore (files st) (symbols st)
               (edges st ++ [mkEdgeRow id source_id target_id kind file_id metadata])%list
               (callsites st) (meta st)
               (seq_files st) (seq_symbols st) id (seq_callsites st))
  end.

(** [add_edge] *)
Definition add_edge (source_id target_id : Z) (kind : string) (file_id : Z)
  (confidence : Q) (metadata : Metadata) (st : Store) : Res Z :=
  let metadata_json := match metadata with [] => None | _ => Some metadata end in
  match find_edge source_id target_id kind file_id st with
  | Some e => Ok (e_id e) st
  | None =>
      insert_edge ["source_id"; "target_id"; "kind"; "file_id"; "confidence"; "metadata"]
        source_id target_id kind file_id metadata_json st
  end.

Definition find_symbol (sid : Z) (st : Store) : option SymbolRow :=
  List.find (fun s => s_id s =? sid) (symbols st).

(** [get_incoming_edges]: edges into the symbol, joined with the source
    symbol (an edge whose source row is missing drops out of the join);
    rows come in rowid order. *)
Definition get_incoming_edges (symbol_id : Z) (st : Store) : list (EdgeRow * SymbolRow) :=
  flat_map (fun e => if e_target_id e =? symbol_id then
                       match find_symbol (e_source_id e) st with
                       | Some s => [(e, s)] | None => [] end
                     else []) (edges st).

(** [get_outgoing_edges] *)
Definition get_outgoing_edges (symbol_id : Z) (st : Store) : list (EdgeRow * SymbolRow) :=
  flat_map (fun e => if e_source_id e =? symbol_id then
                       match find_symbol (e_target_id e) st with
                       | Some s => [(e, s)] | None => [] end
                     else []) (edges st).

(** [delete_edges_in_file] *)
Definition delete_edges_in_file (file_id : Z) (st : Store) : Z * Store :=
  let dead := map e_id (filter (fun e => e_file_id e =? file_id) (edges st)) in
  (Z.of_nat (List.length dead),
   mkStore (files st) (symbols st) (filter (fun e => negb (memZ (e_id e) dead)) (edges st))
           (filter (fun c => negb (memZ (c_edge_id c) dead)) (callsites st))
           (meta st) (seq_files st) (seq_symbols st) (seq_edges st) (seq_callsites st)).

(** [update_index_stats] *)
Definition update_index_stats (file_count symbol_count now : Z) (st : Store) : Store :=
  set_meta "indexed_symbols" (z_str symbol_count)
    (set_meta "indexed_files" (z_str file_count)
       (set_meta "last_indexed" (z_str now) st)).

End Db.

(** ** graph.py *)
Module Graph.
Import PyStr Db.
Local Open Scope Z_scope.

(** [GraphNode] *)
Record Node := mkNode {
  n_symbol_id : Z; n_name : string; n_kind : string; n_file_path : string;
  n_line_start : Z; n_confidence : Q; n_path_depth : Z }.

(** The argument of [callers]/[callees]: a symbol id or a name. *)
Inductive Target := TId (id : Z) | TName (name : string).

(** Outcome of the traversal loop: its result, an exception raised by
    [_extract_confidence] (a non-numeric ["confidence"] in an edge's
    metadata makes [max]/[min] raise [TypeError]), or no result within
    the given number of loop iterations. *)
Inductive Outcome := Done (l : list Node) | Raised | OutOfFuel.

Fixpoint meta_get (k : string) (md : Metadata) : option MetaVal :=
  match md with
  | [] => None
  | (k', v) :: r => if String.eqb k k' then Some v else meta_get k r
  end.

(** [_extract_confidence] *)
Definition extract_confidence (e : EdgeRow) : option Q :=
  let c0 := match e_metadata e with
            | Some md => match meta_get "confidence" md with
                         | Some v => v | None => MNum (8 # 10) end
            | None => MNum (8 # 10)
            end in
  let num c :=
      let c1 := if String.eqb (e_kind e) "call" then py_max c (9 # 10)
                else if String.eqb (e_kind e) "import" then py_max c (85 # 100)
                else c in
      Some (py_min c1 1) in
  match c0 with
  | MNum c => num c
  | MBool b => num (if b then 1 else 0)%Q   (* [bool] is an [int] subclass *)
  | MStr _ | MNull | MList _ | MDict _ => None
  end.

(** [_get_symbol]: the symbol joined with its file's path. *)
Definition get_symbol (sid : Z) (st : Store) : option (SymbolRow * string) :=
  match find_symbol sid st with
  | Some s => match get_file_by_id (s_file_id s) st with
              | Some f => Some (s, f_path f)
              | None => None
              end
  | None => None
  end.

(** [_resolve_symbol] *)
Definition resolve_symbol (qualified_name : string) (st : Store) : option Z :=
  let by_name n := option_map s_id (List.find (fun s => String.eqb (s_name s) n) (symbols st)) in
  match by_name qualified_name with
  | Some id => Some id
  | None =>
      let parts := split_char qualified_name "." in
      if (1 <? List.length parts)%nat then by_name (last parts "") else None
  end.

(** The sort key [(-n.confidence, n.name)] compared as a Python tuple. *)
Definition node_key_lt (a b : Node) : bool :=
  Qlt_bool (n_confidence b) (n_confidence a)
  || (Qeq_bool (n_confidence a) (n_confidence b) && String.ltb (n_name a) (n_name b)).

Definition in_results (id : Z) (results : list Node) : bool :=
  existsb (fun n => n_symbol_id n =? id) results.

Section Traversal.
(** [callers] follows incoming edges and takes the edge's source;
    [callees] follows outgoing edges and takes the edge's target. *)
Variable next_edges : Z -> Store -> list (EdgeRow * SymbolRow).
Variable other_end : EdgeRow -> Z.
Variable st : Store.
Variable start : Z.
Variable depth : Z.
Variable min_conf : Q.

(** The [for edge in edges] loop: the updated [results] and the entries
    appended to the queue, or [None] when an exception is raised. *)
Fixpoint scan_edges (es : list (EdgeRow * SymbolRow)) (cur_depth : Z) (cur_conf : Q)
  (results : list Node) (added : list (Z * Z * Q)) : option (list Node * list (Z * Z * Q)) :=
  match es with
  | [] => Some (results, added)
  | (e, _) :: r =>
      let cid := other_end e in
      if cid =? start then scan_edges r cur_depth cur_conf results added
      else if in_results cid results then scan_edges r cur_depth cur_conf results added
      else match extract_confidence e with
           | None => None
           | Some edge_conf =>
               let agg := (cur_conf * edge_conf)%Q in
               if Qlt_bool agg min_conf then scan_edges r cur_depth cur_conf results added
               else match get_symbol cid st with
                    | Some (sym, path) =>
                        let node := mkNode cid (s_name sym) (s_kind sym) path
                                           (s_line_start sym) agg (cur_depth + 1) in
                        scan_edges r cur_depth cur_conf (results ++ [node])%list
                                   (added ++ [(cid, cur_depth + 1, agg)])%list
                    | None => scan_edges r cur_depth cur_conf results added
                    end
           end
  end.

(** The [while queue] loop, one unit of [fuel] per iteration. *)
Fixpoint bfs (fuel : nat) (queue : list (Z * Z * Q)) (results : list Node) : Outcome :=
  match queue with
  | [] => Done results
  | (cid, cd, cc) :: q =>
      match fuel with
      | O => OutOfFuel
      | S f =>
          if depth <=? cd then bfs f q results
          else match scan_edges (next_edges cid st) cd cc results [] with
               | None => Raised
               | Some (results', added) => bfs f (q ++ added)%list results'
               end
      end
  end.
End Traversal.

(** One loop iteration per queue entry; the queue receives at most one
    entry per edge plus the start node, so [1 + len(edges)] iterations
    are enough (proved below). *)
Definition traverse (next_edges : Z -> Store -> list (EdgeRow * SymbolRow))
  (other_end : EdgeRow -> Z) (st : Store) (target : Target) (depth : Z) (min_conf : Q)
  : Outcome :=
  let sid := match target with TId id => Some id | TName n => resolve_symbol n st end in
  match sid with
  | None => Done []
  | Some sid =>
      match bfs next_edges other_end st sid depth min_conf (S (List.length (edges st)))
                [(sid, 0, 1%Q)] [] with
      | Done results => Done (sort_by (fun n => n) node_key_lt results)
      | o => o
      end
  end.

(** [GraphEngine.callers] *)
Definition callers (st : Store) (target : Target) (depth : Z) (min_conf : Q) : Outcome :=
  traverse get_incoming_edges e_source_id st target depth min_conf.

(** [GraphEngine.callees] *)
Definition callees (st : Store) (target : Target) (depth : Z) (min_conf : Q) : Outcome :=
  traverse get_outgoing_edges e_target_id st target depth min_conf.

End Graph.

(** ** graph.py: [GraphEngine] with its symbol cache *)
(** The functions of [Graph] above answer a query on a fresh
    [GraphEngine]. An engine keeps [_symbol_cache] across queries and never
    invalidates it, so a query reads a symbol through the cache: a row
    cached by an earlier query is returned even if the store has changed
    since. This module threads that cache through the same loops. *)
Module Engine.
Import PyStr Db Graph.
Local Open Scope Z_scope.

(** [_symbol_cache]: symbol id to the joined row, or [None] (cached too). *)
Definition SymbolCache := list (Z * option (SymbolRow * string)).

Fixpoint cache_get (k : Z) (c : SymbolCache) : option (option (SymbolRow * string)) :=
  match c with
  | [] => None
  | (k', v) :: r => if k =? k' then Some v else cache_get k r
  end.

(** [_get_symbol]: the cached entry, or the query's answer, stored. *)
Definition get_symbol_cached (sid : Z) (st : Store) (c : SymbolCache)
  : option (SymbolRow * string) * SymbolCache :=
  match cache_get sid c with
  | Some v => (v, c)
  | None => let v := get_symbol sid st in (v, (c ++ [(sid, v)])%list)
  end.

Section Traversal.
Variable next_edges : Z -> Store -> list (EdgeRow * SymbolRow).
Variable other_end : EdgeRow -> Z.
Variable st : Store.
Variable start : Z.
Variable depth : Z.
Variable min_conf : Q.

(** The [for edge in edges] loop with the cache; the cache keeps its
    entries when an exception is raised. *)
Fixpoint scan_edges_c (es : list (EdgeRow * SymbolRow)) (cur_depth : Z) (cur_conf : Q)
  (results : list Node) (added : list (Z * Z * Q)) (c : SymbolCache)
  : option (list Node * list (Z * Z * Q)) * SymbolCache :=
  match es with
  | [] => (Some (results, added), c)
  | (e, _) :: r =>
      let cid := other_end e in
      if cid =? start then scan_edges_c r cur_depth cur_conf results added c
      else if in_results cid results then scan_edges_c r cur_depth cur_conf results added c
      else match extract_confidence e with
           | None => (None, c)
           | Some edge_conf =>
               let agg := (cur_conf * edge_conf)%Q in
               if Qlt_bool agg min_conf then scan_edges_c r cur_depth cur_conf results added c
               else let '(sym, c') := get_symbol_cached cid st c in
                    match sym with
                    | Some (sym, path) =>
                        let node := mkNode cid (s_name sym) (s_kind sym) path
                                           (s_line_start sym) agg (cur_depth + 1) in
                        scan_edges_c r cur_depth cur_conf (results ++ [node])%list
                                     (added ++ [(cid, cur_depth + 1, agg)])%list c'
                    | None => scan_edges_c r cur_depth cur_conf results added c'
                    end
           end
  end.

(** The [while queue] loop with the cache. *)
Fixpoint bfs_c (fuel : nat) (queue : list (Z * Z * Q)) (results : list Node) (c : SymbolCache)
  : Outcome * SymbolCache :=
  match queue with
  | [] => (Done results, c)
  | (cid, cd, cc) :: q =>
      match fuel with
      | O => (OutOfFuel, c)
      | S f =>
          if depth <=? cd then bfs_c f q results c
          else match scan_edges_c (next_edges cid st) cd cc results [] c with
               | (None, c') => (Raised, c')
               | (Some (results', added), c') => bfs_c f (q ++ added)%list results' c'
               end
      end
  end.
End Traversal.

Definition traverse_c (next_edges : Z -> Store -> list (EdgeRow * SymbolRow))
  (other_end : EdgeRow -> Z) (st : Store) (target : Target) (depth : Z) (min_conf : Q)
  (c : SymbolCache) : Outcome * SymbolCache :=
  let sid := match target with TId id => Some id | TName n => resolve_symbol n st end in
  match sid with
  | None => (Done [], c)
  | Some sid =>
      let '(o, c') := bfs_c next_edges other_end st sid depth min_conf (S (List.length (edges st)))
                        [(sid, 0, 1%Q)] [] c in
      (match o with
       | Done results => Done (sort_by (fun n => n) node_key_lt results)
       | o => o
       end, c')
  end.

(** [GraphEngine.callers] on an engine whose cache is [c]: the answer and
    the cache afterwards. *)
Definition callers (c : SymbolCache) (st : Store) (target : Target) (depth : Z) (min_conf : Q)
  : Outcome * SymbolCache :=
  traverse_c get_incoming_edges e_source_id st target depth min_conf c.

(** [GraphEngine.callees] on an engine whose cache is [c]. *)
Definition callees (c : SymbolCache) (st : Store) (target : Target) (depth : Z) (min_conf : Q)
  : Outcome * SymbolCache :=
  traverse_c get_outgoing_edges e_target_id st target depth min_conf c.

End Engine.

(** ** indexer.py *)
Module Indexer.
Import PyStr Db.
Local Open Scope Z_scope.

(** [IndexStats] (timings left out). *)
Record IndexStats := mkStats {
  files_scanned : Z; files_new : Z; files_changed : Z; files_unchanged : Z;
  files_deleted : Z; files_error : Z; symbols_added : Z; symbols_removed : Z;
  edges_added : Z; edges_removed : Z }.

Definition stats0 : IndexStats := mkStats 0 0 0 0 0 0 0 0 0 0.

Definition set_scanned (n : Z) (s : IndexStats) : IndexStats :=
  mkStats n (files_new s) (files_changed s) (files_unchanged s) (files_deleted s)
    (files_error s) (symbols_added s) (symbols_removed s) (edges_added s) (edges_removed s).
Definition inc_new (s : IndexStats) : IndexStats :=
  mkStats (files_scanned s) (files_new s + 1) (files_changed s) (files_unchanged s) (files_deleted s)
    (files_error s) (symbols_added s) (symbols_removed s) (edges_added s) (edges_removed s).
Definition inc_changed (s : IndexStats) : IndexStats :=
  mkStats (files_scanned s) (files_new s) (files_changed s + 1) (files_unchanged s) (files_deleted s)
    (files_error s) (symbols_added s) (symbols_removed s) (edges_added s) (edges_removed s).
Definition inc_unchanged (s : IndexStats) : IndexStats :=
  mkStats (files_scanned s) (files_new s) (files_changed s) (files_unchanged s + 1) (files_deleted s)
    (files_error s) (symbols_added s) (symbols_removed s) (edges_added s) (edges_removed s).
Definition inc_deleted (s : IndexStats) : IndexStats :=
  mkStats (files_scanned s) (files_new s) (files_changed s) (files_unchanged s) (files_deleted s + 1)
    (files_error s) (symbols_added s) (symbols_removed s) (edges_added s) (edges_removed s).
Definition inc_error (s : IndexStats) : IndexStats :=
  mkStats (files_scanned s) (files_new s) (files_changed s) (files_unchanged s) (files_deleted s)
    (files_error s + 1) (symbols_added s) (symbols_removed s) (edges_added s) (edges_removed s).
Definition add_symbols_added (n : Z) (s : IndexStats) : IndexStats :=
  mkStats (files_scanned s) (files_new s) (files_changed s) (files_unchanged s) (files_deleted s)
    (files_error s) (symbols_added s + n) (symbols_removed s) (edges_added s) (edges_removed s).
Definition add_symbols_removed (n : Z) (s : IndexStats) : IndexStats :=
  mkStats (files_scanned s) (files_new s) (files_changed s) (files_unchanged s) (files_deleted s)
    (files_error s) (symbols_added s) (symbols_removed s + n) (edges_added s) (edges_removed s).

(** [FileInfo] as produced by [scan_files]: the stat'ed candidate, with
    [int(mtime)]. The file's bytes are [fi_content]; [None] when reading
    it fails (e.g. permission denied), which makes hashing raise. *)
Record FileInfo := mkFileInfo {
  fi_path : string; fi_mtime : Z; fi_size : Z; fi_language : option string;
  fi_content : option string }.

(** [PurePath.stem] of a relative path. *)
Definition stem (path : string) : string :=
  let name := last (split_char path "/") "" in
  let i := rfind name "." in
  if (0 <? i) && (i <? len name - 1) then slice_to name i else name.

(** A symbol as returned by [parse_file]. *)
Record ParsedSymbol := mkParsedSymbol {
  ps_name : string; ps_kind : string; ps_line_start : Z; ps_line_end : option Z;
  ps_column_start : option Z; ps_column_end : option Z;
  ps_signature : option string; ps_docstring : option string;
  ps_parent_name : option string; ps_calls : list string }.

(** [Indexer.parse_file]: the placeholder the indexer calls, one
    whole-file symbol named after the file's stem. *)
Definition parse_file (fi : FileInfo) : list ParsedSymbol :=
  [mkParsedSymbol (stem (fi_path fi)) "file" 1 None None None None None None []].

Section Run.
(** [hashlib.sha256(...).hexdigest()] of a file's bytes. *)
Variable sha256 : string -> string.
(** [int(datetime.now().timestamp())] during the run. *)
Variable now : Z.

(** [compute_file_hash]; [None] when reading the file raises. *)
Definition compute_file_hash (fi : FileInfo) : option string :=
  option_map sha256 (fi_content fi).

(** [should_reindex]; [None] when hashing raises. *)
Definition should_reindex (fi : FileInfo) (db_file : option FileRow) : option bool :=
  match db_file with
  | None => Some true
  | Some r =>
      if negb (fi_mtime fi =? f_mtime r) then Some true
      else if negb (fi_size fi =? f_size r) then Some true
      else match compute_file_hash fi with
           | None => None
           | Some h => Some (negb (String.eqb h (f_content_hash r)))
           end
  end.

(** [remove_stale_files] over the snapshot [get_all_files()]. *)
Fixpoint remove_stale (current : list string) (recs : list FileRow)
  (st : Store) (stats : IndexStats) : Store * IndexStats :=
  match recs with
  | [] => (st, stats)
  | r :: rest =>
      if existsb (String.eqb (f_path r)) current then remove_stale current rest st stats
      else remove_stale current rest (snd (delete_file (f_path r) st)) (inc_deleted stats)
  end.

(** The [for symbol in symbols] loop of [index_file]; [symbol_map] maps
    names to new ids (a later symbol of the same name overrides). *)
Fixpoint add_symbols (file_id : Z) (syms : list ParsedSymbol)
  (symbol_map : list (string * Z)) (st : Store) (stats : IndexStats)
  : option (Store * IndexStats) :=
  match syms with
  | [] => Some (st, stats)
  | s :: rest =>
      let parent_id := match ps_parent_name s with
                       | Some pn => match List.find (fun kv => String.eqb (fst kv) pn) symbol_map with
                                    | Some (_, id) => Some id | None => None end
                       | None => None end in
      match add_symbol file_id (ps_name s) (ps_kind s) (ps_line_start s) (ps_line_end s)
              (ps_column_start s) (ps_column_end s) (ps_signature s) (ps_docstring s)
              parent_id st with
      | Ok sid st' => add_symbols file_id rest ((ps_name s, sid) :: symbol_map) st'
                        (add_symbols_added 1 stats)
      | Err _ => None
      end
  end.

(** [index_file]: an exception inside the [try] counts an error and keeps
    the writes made before it. *)
Definition index_file (fi : FileInfo) (st : Store) (stats : IndexStats) : Store * IndexStats :=
  match compute_file_hash fi with
  | None => (st, inc_error stats)
  | Some h =>
      let '(file_id, st1) := add_file (fi_path fi) (fi_mtime fi) (fi_size fi) h (fi_language fi) now st in
      let old := get_symbols_in_file file_id st1 in
      let stats1 := add_symbols_removed (Z.of_nat (List.length old)) stats in
      let st2 := snd (delete_symbols_in_file file_id st1) in
      let st3 := snd (delete_edges_in_file file_id st2) in
      match add_symbols file_id (parse_file fi) [] st3 stats1 with
      | Some (st4, stats2) => (st4, stats2)
      | None => (st3, inc_error stats1)
      end
  end.

(** The [for file_info in files] loop of [run]; [None] when an exception
    escapes (hashing inside [should_reindex]). *)
Fixpoint process (force : bool) (fis : list FileInfo) (st : Store) (stats : IndexStats)
  : option (Store * IndexStats) :=
  match fis with
  | [] => Some (st, stats)
  | fi :: rest =>
      let db_file := get_file (fi_path fi) st in
      let go := if force then Some true else should_reindex fi db_file in
      match go with
      | None => None
      | Some true =>
          let stats' := match db_file with Some _ => inc_changed stats | None => inc_new stats end in
          let '(st', stats'') := index_file fi st stats' in
          process force rest st' stats''
      | Some false => process force rest st (inc_unchanged stats)
      end
  end.

(** [Indexer.run] whose scan produced [files]; [None] when the run
    re-raises. [stats_in] is [self.stats] on entry: the indexer's counters
    persist across runs on one [Indexer] (the error counts of [scan_files]
    included), and [run] only reassigns [files_scanned]. *)
Definition run (force : bool) (files0 : list FileInfo) (st : Store) (stats_in : IndexStats)
  : option (IndexStats * Store) :=
  let stats := set_scanned (Z.of_nat (List.length files0)) stats_in in
  let current := map fi_path files0 in
  let '(st1, stats1) := remove_stale current (get_all_files st) st stats in
  match process force files0 st1 stats1 with
  | None => None
  | Some (st2, stats2) =>
      Some (stats2, update_index_stats (Z.of_nat (List.length (Db.files st2)))
                                       (Z.of_nat (List.length (Db.symbols st2))) now st2)
  end.
End Run.

(** [pui index]: connect (initialising the schema), then run a freshly
    constructed [Indexer], whose [self.stats] is [IndexStats()]. *)
Definition index (sha256 : string -> string) (now : Z) (force : bool)
  (files0 : list FileInfo) (st : Store) : option (IndexStats * Store) :=
  match connect now st with
  | Ok _ st' => run sha256 now force files0 st' stats0
  | Err _ => None
  end.

End Indexer.

(** ** parser.py: call sites and their confidence *)
Module Parser.
Import PyStr.
Local Open Scope Z_scope.

Definition is_alpha (c : ascii) : bool :=
  let n := nat_of_ascii c in ((65 <=? n) && (n <=? 90))%nat || ((97 <=? n) && (n <=? 122))%nat.
Definition is_digit (c : ascii) : bool :=
  let n := nat_of_ascii c in ((48 <=? n) && (n <=? 57))%nat.
(** [[a-zA-Z_]] and [\w] (on ASCII). *)
Definition is_ident_start (c : ascii) : bool := is_alpha c || Ascii.eqb c "_".
Definition is_word (c : ascii) : bool := is_ident_start c || is_digit c.

Definition ident_chars (l : list ascii) : bool :=
  match l with
  | c :: r => is_ident_start c && forallb is_word r
  | [] => false
  end.

(** [re.match(r'^[a-zA-Z_]\w*$', s)]; [$] also matches before a final newline. *)
Definition simple_identifier (s : string) : bool :=
  let l := list_ascii_of_string s in
  ident_chars l ||
  match rev l with
  | c :: r => Ascii.eqb c (ascii_of_nat 10) && ident_chars (rev r)
  | [] => false
  end.

(** ['.' in s] *)
Definition contains_dot (s : string) : bool :=
  existsb (fun c => Ascii.eqb c ".") (list_ascii_of_string s).

(** [_calculate_call_confidence] *)
Definition calculate_call_confidence (callee_text : string) : Q :=
  let c0 := (1 # 2)%Q in
  let c1 := if contains_dot callee_text then (c0 + (2 # 10))%Q else c0 in
  let c2 := if simple_identifier callee_text then (c1 + (1 # 10))%Q else c1 in
  py_min c2 1.

(** [Callsite] *)
Record Callsite := mkCallsite {
  cs_callee_text : string; cs_line : Z; cs_column : option Z;
  cs_scope_symbol_id : option string; cs_confidence : Q; cs_context : option string }.

(** The part of a parser [Symbol] used for scoping. *)
Record Symbol := mkSymbol { sy_name : string; sy_kind : string; sy_line_start : Z; sy_line_end : option Z }.

(** [Symbol.symbol_id] *)
Definition symbol_id (s : Symbol) : string :=
  sy_name s ++ ":" ++ sy_kind s ++ ":" ++ z_str (sy_line_start s).

(** [_find_containing_symbol] *)
Definition find_containing_symbol (line : Z) (symbols : list Symbol) : option string :=
  let best := fold_left (fun best s =>
      if (sy_line_start s <=? line) &&
         match sy_line_end s with None => true | Some e => line <=? e end
      then match best with
           | None => Some s
           | Some b => if sy_line_start b <? sy_line_start s then Some s else best
           end
      else best) symbols None in
  option_map symbol_id best.

(** A call node found in the syntax tree: the callee's text and the
    node's start point (row, column). *)
Record CallNode := mkCallNode { cn_text : string; cn_row : Z; cn_col : Z }.

(** The loop body shared by [extract_callsites] (query captures) and
    [_fallback_callsite_extraction] (tree walk). *)
Definition callsite_of_node (symbols : list Symbol) (n : CallNode) : Callsite :=
  let line := cn_row n + 1 in
  mkCallsite (cn_text n) line (Some (cn_col n)) (find_containing_symbol line symbols)
             (calculate_call_confidence (cn_text n)) None.

(** *** The regex fallback [_regex_parse_fallback] (Python branch) *)

(** Length of the longest prefix matching the callee group of [call_re]:
    an identifier, then any number of ['.'] followed by an identifier. *)
Fixpoint word_len (l : list ascii) : nat :=
  match l with
  | c :: r => if is_word c then S (word_len r) else O
  | [] => O
  end.

Fixpoint chain_len (fuel : nat) (l : list ascii) : nat :=
  match fuel with
  | O => O
  | S f =>
      match l with
      | c :: r =>
          if is_ident_start c then
            let k := S (word_len r) in
            match skipn k l with
            | d :: e :: r' => if Ascii.eqb d "." && is_ident_start e
                              then k + S (chain_len f (e :: r'))
                              else k
            | _ => k
            end
          else O
      | [] => O
      end
  end.

(** A match of [call_re] at the head of [l]: the callee and the text after
    the ['(']. Backtracking cannot help: a shorter chain is followed by a
    word character or a ['.']. *)
Definition call_at (l : list ascii) : option (string * list ascii) :=
  let k := chain_len (List.length l) l in
  match k with
  | O => None
  | _ => match drop_spaces (skipn k l) with
         | c :: rest => if Ascii.eqb c "(" then Some (string_of_list_ascii (firstn k l), rest) else None
         | [] => None
         end
  end.

(** [call_re.finditer(line)] *)
Fixpoint find_calls (fuel : nat) (l : list ascii) : list string :=
  match fuel with
  | O => []
  | S f =>
      match l with
      | [] => []
      | _ :: r => match call_at l with
                  | Some (callee, rest) => callee :: find_calls f rest
                  | None => find_calls f r
                  end
      end
  end.

Fixpoint starts_with_chars (p l : list ascii) : option (list ascii) :=
  match p, l with
  | [], _ => Some l
  | a :: p', b :: l' => if Ascii.eqb a b then starts_with_chars p' l' else None
  | _ :: _, [] => None
  end.

(** [kw\s+[a-zA-Z_]] at the head of [l]. *)
Definition kw_then_ident (kw : string) (l : list ascii) : bool :=
  match starts_with_chars (list_ascii_of_string kw) l with
  | Some (c :: r) => is_space c && match drop_spaces r with
                                   | d :: _ => is_ident_start d | [] => false end
  | _ => false
  end.

(** [class_re.match(line)] *)
Definition class_match (line : string) : bool :=
  kw_then_ident "class" (drop_spaces (list_ascii_of_string line)).

(** [func_re.match(line)] *)
Definition func_match (line : string) : bool :=
  let l := drop_spaces (list_ascii_of_string line) in
  kw_then_ident "def" l ||
  match starts_with_chars (list_ascii_of_string "async") l with
  | Some (c :: r) => is_space c && kw_then_ident "def" (drop_spaces r)
  | _ => false
  end.

(** Call sites of [_regex_parse_fallback]: class and def lines [continue]
    before the call search; only the Python branch searches calls. *)
Definition regex_fallback_callsites (language content : string) : list Callsite :=
  if String.eqb (strip content) "" then [] else
  if String.eqb language "python" then
    let lines := split_char content (ascii_of_nat 10) in
    flat_map (fun il =>
      let '(i, line) := il in
      if class_match line || func_match line then []
      else map (fun callee =>
                  mkCallsite callee (Z.of_nat i + 1) None None
                             (if contains_dot callee then 6 # 10 else 3 # 10)%Q None)
               (find_calls (String.length line) (list_ascii_of_string line)))
      (combine (seq 0 (List.length lines)) lines)
  else [].

(** How [TreeSitterParser.parse_file] went for a readable file of a
    supported language: the [calls] query was loaded and its captures
    are the call nodes; no query, so the tree walk found the call nodes;
    or tree-sitter raised, so the regex fallback ran. *)
Inductive TreeSitterRun :=
| TSQuery (captures : list CallNode)
| TSWalk (found : list CallNode)
| TSFailed.

(** The [callsites] of the [ParseResult] returned by [parse_file]. *)
Definition parse_callsites (run : TreeSitterRun) (language content : string)
  (symbols : list Symbol) : list Callsite :=
  match run with
  | TSQuery caps => map (callsite_of_node symbols) caps
  | TSWalk found => map (callsite_of_node symbols) found
  | TSFailed => regex_fallback_callsites language content
  end.

End Parser.

(** ** packs.py: Zoom packs and their truncation *)
Module Zoom.
Import PyStr.
Local Open Scope Z_scope.

(** A caller/callee entry ([GraphNode.to_dict]) as the pack prints it;
    [ge_confidence] is the printed form of the rounded float. *)
Record GraphEntry := mkGraphEntry { ge_name : string; ge_file_path : string; ge_confidence : string }.

(** [ZoomPack]; the target symbol's dict keys [file_path], [kind] and
    [line_start] may be absent ([None]). *)
Record ZoomPack := mkZoomPack {
  zp_name : string; zp_file_path : option string; zp_kind : option string;
  zp_line_start : option Z;
  code_slice : string; signature : option string; docstring : option string;
  callers : list GraphEntry; callees : list GraphEntry; file_context : string }.

Definition get_or (o : option string) (d : string) : string :=
  match o with Some s => s | None => d end.

(** Python truthiness of an optional string. *)
Definition truthy (o : option string) : bool :=
  match o with Some s => negb (String.eqb s "") | None => false end.

Definition entry_line (g : GraphEntry) : string :=
  "- `" ++ ge_name g ++ "` in `" ++ ge_file_path g ++ "` (confidence: " ++ ge_confidence g ++ ")".

Definition entries_lines (l : list GraphEntry) : list string :=
  app (map entry_line (firstn 10 l))
      (if (10 <? List.length l)%nat
       then ["- ... and " ++ z_str (Z.of_nat (List.length l) - 10) ++ " more"] else []).

(** [ZoomPack.to_text] *)
Definition to_text (p : ZoomPack) : string :=
  join NL
   (concat
    [["# Zoom: " ++ zp_name p; "";
      "**File:** `" ++ get_or (zp_file_path p) "unknown" ++ "`";
      "**Kind:** " ++ get_or (zp_kind p) "unknown";
      "**Line:** " ++ z_str (match zp_line_start p with Some l => l | None => 0 end);
      ""; "## Signature"; ""; "```";
      (if truthy (signature p) then get_or (signature p) "" else zp_name p);
      "```"; ""];
     (if truthy (docstring p) then ["## Documentation"; ""; get_or (docstring p) ""; ""] else []);
     ["## Code"; ""; "```python"; code_slice p; "```"; ""; "## Callers"; ""];
     entries_lines (callers p);
     [""; "## Callees"; ""];
     entries_lines (callees p)]).

Definition set_code_slice (p : ZoomPack) (c : string) : ZoomPack :=
  mkZoomPack (zp_name p) (zp_file_path p) (zp_kind p) (zp_line_start p) c
             (signature p) (docstring p) (callers p) (callees p) (file_context p).
Definition set_callers (p : ZoomPack) (l : list GraphEntry) : ZoomPack :=
  mkZoomPack (zp_name p) (zp_file_path p) (zp_kind p) (zp_line_start p) (code_slice p)
             (signature p) (docstring p) l (callees p) (file_context p).
Definition set_callees (p : ZoomPack) (l : list GraphEntry) : ZoomPack :=
  mkZoomPack (zp_name p) (zp_file_path p) (zp_kind p) (zp_line_start p) (code_slice p)
             (signature p) (docstring p) (callers p) l (file_context p).
Definition drop_docstring (p : ZoomPack) : ZoomPack :=
  mkZoomPack (zp_name p) (zp_file_path p) (zp_kind p) (zp_line_start p) (code_slice p)
             (signature p) None (callers p) (callees p) (file_context p).

(** [estimate_tokens(pack.to_text(), is_code=True) <= budget_tokens] *)
Definition fits (p : ZoomPack) (budget : Z) : bool :=
  Tokens.estimate_tokens (to_text p) true <=? budget.

(** Python's [l[:k]] on a list. *)
Definition list_slice_to {A} (l : list A) (k : Z) : list A :=
  if 0 <=? k then firstn (Z.to_nat k) l
  else firstn (Z.to_nat (Z.of_nat (List.length l) + k)) l.

(** State of the first [while] loop of [_truncate_pack]. *)
Record CodeLoop := mkCodeLoop { code_lines : list string; max_code_lines : Z; cl_pack : ZoomPack }.

Inductive CodeStep :=
| CReturn (p : ZoomPack)     (* [return pack] inside the loop *)
| CNext (s : CodeLoop)       (* next iteration *)
| CExit (p : ZoomPack).      (* the loop condition is false *)

(** One iteration of [while len(code_lines) > max_code_lines]. *)
Definition code_step (budget : Z) (s : CodeLoop) : CodeStep :=
  if max_code_lines s <? Z.of_nat (List.length (code_lines s)) then
    let cl := list_slice_to (code_lines s) (max_code_lines s) in
    let p := set_code_slice (cl_pack s) (join NL cl ++ NL ++ "# ... truncated") in
    if fits p budget then CReturn p
    else CNext (mkCodeLoop cl (max_code_lines s - 10) p)
  else CExit (cl_pack s).

(** The loop, one unit of [fuel] per iteration; [None]: not finished. *)
Fixpoint code_loop (fuel : nat) (budget : Z) (s : CodeLoop) : option (bool * ZoomPack) :=
  match fuel with
  | O => None
  | S f => match code_step budget s with
           | CReturn p => Some (true, p)
           | CExit p => Some (false, p)
           | CNext s' => code_loop f budget s'
           end
  end.

(** [while len(pack.callers) > 3: pack.callers = pack.callers[:-1]; ...] *)
Fixpoint trim_callers (n : nat) (budget : Z) (p : ZoomPack) : bool * ZoomPack :=
  match n with
  | O => (false, p)
  | S k => if (3 <? List.length (callers p))%nat then
             let p' := set_callers p (removelast (callers p)) in
             if fits p' budget then (true, p') else trim_callers k budget p'
           else (false, p)
  end.

Fixpoint trim_callees (n : nat) (budget : Z) (p : ZoomPack) : bool * ZoomPack :=
  match n with
  | O => (false, p)
  | S k => if (3 <? List.length (callees p))%nat then
             let p' := set_callees p (removelast (callees p)) in
             if fits p' budget then (true, p') else trim_callees k budget p'
           else (false, p)
  end.

(** [ZoomPackGenerator._truncate_pack]; [None] when the first loop has
    not finished after [fuel] iterations. The two trimming loops run at
    most [len(callers)] and [len(callees)] times. *)
Definition truncate_pack (fuel : nat) (p : ZoomPack) (budget : Z) : option ZoomPack :=
  match code_loop fuel budget (mkCodeLoop (split_char (code_slice p) (ascii_of_nat 10)) 50 p) with
  | None => None
  | Some (true, p1) => Some p1
  | Some (false, p1) =>
      let '(done1, p2) := trim_callers (List.length (callers p1)) budget p1 in
      if done1 then Some p2 else
      let '(done2, p3) := trim_callees (List.length (callees p2)) budget p2 in
      if done2 then Some p3 else
      if negb (fits p3 budget) then Some (drop_docstring p3) else Some p3
  end.

End Zoom.

(** ** db.py: metadata reads and call sites *)
Module DbMore.
Import PyStr Db.
Local Open Scope Z_scope.

(** [get_meta] *)
Definition get_meta (key : string) (st : Store) : option string := meta_lookup key (meta st).

(** [add_callsite]; the foreign key on [edge_id] is enforced. *)
Definition add_callsite (edge_id line : Z) (column : option Z) (context : option string)
  (st : Store) : Res Z :=
  match List.find (fun e => e_id e =? edge_id) (edges st) with
  | None => Err (IntegrityError "FOREIGN KEY constraint failed")
  | Some _ =>
      let id := seq_callsites st + 1 in
      Ok id (mkStore (files st) (symbols st) (edges st)
               (callsites st ++ [mkCallsiteRow id edge_id line column context])%list
               (meta st) (seq_files st) (seq_symbols st) (seq_edges st) id)
  end.

End DbMore.

(** ** graph.py: [_filter_test_files] *)
Module TestFiles.
Import PyStr.
Local Open Scope Z_scope.

(** [str.lower] on ASCII. *)
Definition ascii_lower (c : ascii) : ascii :=
  let n := nat_of_ascii c in
  if ((65 <=? n) && (n <=? 90))%nat then ascii_of_nat (n + 32) else c.

Definition lower (s : string) : string :=
  string_of_list_ascii (map ascii_lower (list_ascii_of_string s)).

(** [sub in s] *)
Definition contains (s sub : string) : bool := 0 <=? find s sub.

Definition test_patterns : list string :=
  ["test_"; "_test."; "_spec."; ".spec."; "tests/"; "/tests/"; "__tests__/"; "/__tests__/"].

(** [any(pattern in f_lower for pattern in test_patterns)] *)
Definition is_test_path (f : string) : bool :=
  let f_lower := lower f in existsb (contains f_lower) test_patterns.

(** [GraphEngine._filter_test_files] *)
Definition filter_test_files (files : list string) : list string :=
  let test_files := fold_left (fun acc f => if is_test_path f then (acc ++ [f])%list else acc) files [] in
  sort_by (fun s => s) String.ltb test_files.

End TestFiles.

(** ** packs.py: Impact packs and their truncation *)
Module Impact.
Import PyStr Graph.
Local Open Scope Z_scope.

(** An entry of [ranked_inspection] as the pack prints it; [ri_score] is
    the printed form of the rounded float. *)
Record RankedItem := mkRankedItem { ri_path : string; ri_score : string; ri_fan_in : Z; ri_reason : string }.

(** [ImpactPack] (the metadata dict is not printed and left out);
    [affected_symbols] holds the nodes whose [to_dict] the pack stores. *)
Record ImpactPack := mkImpactPack {
  changed_items : list string; affected_symbols : list Node; affected_files : list string;
  affected_tests : list string; ranked_inspection : list RankedItem }.

Definition ranked_line (i : Z) (item : RankedItem) : string :=
  z_str i ++ ". `" ++ ri_path item ++ "` " ++ "(score: " ++ ri_score item ++ ", fan-in: "
  ++ z_str (ri_fan_in item) ++ ", " ++ "reason: " ++ ri_reason item ++ ")".

Fixpoint ranked_lines (i : Z) (l : list RankedItem) : list string :=
  match l with
  | [] => []
  | item :: r => ranked_line i item :: ranked_lines (i + 1) r
  end.

Definition bullet (s : string) : string := "- `" ++ s ++ "`".

(** [ImpactPack.to_text] *)
Definition to_text (p : ImpactPack) : string :=
  let nfiles := Z.of_nat (List.length (affected_files p)) in
  let ntests := Z.of_nat (List.length (affected_tests p)) in
  join NL
   (concat
    [["# Impact Analysis"; ""; "## Changed Items"; ""];
     map bullet (changed_items p);
     [""; "## Affected Files"; ""];
     ["Total: " ++ z_str nfiles];
     [""];
     map bullet (firstn 30 (affected_files p));
     (if 30 <? nfiles then ["- ... and " ++ z_str (nfiles - 30) ++ " more"] else []);
     [""; "## Affected Tests"; ""];
     (match affected_tests p with
      | [] => ["No affected tests found."]
      | _ => app (map bullet (firstn 20 (affected_tests p)))
                 (if 20 <? ntests then ["- ... and " ++ z_str (ntests - 20) ++ " more"] else [])
      end);
     [""; "## Recommended Inspection Order"; ""];
     ["Files ranked by importance (fan-in, test proximity, centrality):"];
     [""];
     ranked_lines 1 (firstn 20 (ranked_inspection p))]).

(** [estimate_tokens(pack.to_text(), is_code=True) <= budget_tokens] *)
Definition fits (p : ImpactPack) (budget : Z) : bool :=
  Tokens.estimate_tokens (to_text p) true <=? budget.

Definition set_symbols (p : ImpactPack) (l : list Node) : ImpactPack :=
  mkImpactPack (changed_items p) l (affected_files p) (affected_tests p) (ranked_inspection p).
Definition set_files (p : ImpactPack) (l : list string) : ImpactPack :=
  mkImpactPack (changed_items p) (affected_symbols p) l (affected_tests p) (ranked_inspection p).
Definition set_ranked (p : ImpactPack) (l : list RankedItem) : ImpactPack :=
  mkImpactPack (changed_items p) (affected_symbols p) (affected_files p) (affected_tests p) l.

(** [while len(pack.affected_symbols) > 20: ...]; [true] when the loop
    returned the pack. *)
Fixpoint trim_symbols (n : nat) (budget : Z) (p : ImpactPack) : bool * ImpactPack :=
  match n with
  | O => (false, p)
  | S k => if (20 <? List.length (affected_symbols p))%nat then
             let p' := set_symbols p (removelast (affected_symbols p)) in
             if fits p' budget then (true, p') else trim_symbols k budget p'
           else (false, p)
  end.

Fixpoint trim_files (n : nat) (budget : Z) (p : ImpactPack) : bool * ImpactPack :=
  match n with
  | O => (false, p)
  | S k => if (15 <? List.length (affected_files p))%nat then
             let p' := set_files p (removelast (affected_files p)) in
             if fits p' budget then (true, p') else trim_files k budget p'
           else (false, p)
  end.

Fixpoint trim_ranked (n : nat) (budget : Z) (p : ImpactPack) : bool * ImpactPack :=
  match n with
  | O => (false, p)
  | S k => if (10 <? List.length (ranked_inspection p))%nat then
             let p' := set_ranked p (removelast (ranked_inspection p)) in
             if fits p' budget then (true, p') else trim_ranked k budget p'
           else (false, p)
  end.

(** [ImpactPackGenerator._truncate_pack]; each loop runs at most as many
    times as its list has elements. *)
Definition truncate_pack (p : ImpactPack) (budget : Z) : ImpactPack :=
  let '(done1, p1) := trim_symbols (List.length (affected_symbols p)) budget p in
  if done1 then p1 else
  let '(done2, p2) := trim_files (List.length (affected_files p1)) budget p1 in
  if done2 then p2 else
  snd (trim_ranked (List.length (ranked_inspection p2)) budget p2).

(** The budget step of [ImpactPackGenerator.generate]. *)
Definition enforce_budget (p : ImpactPack) (budget : Z) : ImpactPack :=
  if budget <? Tokens.estimate_tokens (to_text p) true then truncate_pack p budget else p.

End Impact.

(** ** Concrete inputs used by the witnesses and counterexamples *)
Module Inputs.
Import PyStr Db Graph Indexer Parser Zoom.
Local Open Scope Z_scope.

(** The repository [m.py] of the spec's first scenario. *)
Definition m_py_content : string := "def f(): pass" ++ NL ++ "def g(): f()".
Definition m_py : FileInfo := mkFileInfo "m.py" 1700000000 26 (Some "python") (Some m_py_content).
(** [hashlib.sha256] on the one file of this repository. *)
Definition m_py_sha256 (_ : string) : string :=
  "de13c44a3f3b74eeff272f093a4c792fc1f719ce405290a01af8a2686845f219".

(** A file that is listed and stat'ed but cannot be read. *)
Definition locked_py : FileInfo := mkFileInfo "locked.py" 1700000000 10 (Some "python") None.

(** A store with a schema from a future version. *)
Definition future_store : Store := with_meta empty_store [("schema_version", "2")].

(** One file [c.py] with symbols [t], [a], [b], [ab]. *)
Definition c_py : FileRow := mkFileRow 1 "c.py" 1700000000 100 "h" 1700000000 (Some "python").
Definition fsym (id : Z) (n : string) : SymbolRow :=
  mkSymbolRow id 1 n "function" id None None None None None None.
Definition call_edge (id s t : Z) (md : option Metadata) : EdgeRow := mkEdgeRow id s t "call" 1 md.
Definition abt_symbols : list SymbolRow := [fsym 1 "t"; fsym 2 "a"; fsym 3 "b"; fsym 4 "ab"].

(** The edges a->t (confidence 1.0), b->t, ab->a, ab->b, inserted in this order ... *)
Definition order_store_1 : Store :=
  mkStore [c_py] abt_symbols
    [call_edge 1 2 1 (Some [("confidence", MNum 1)]); call_edge 2 3 1 None;
     call_edge 3 4 2 None; call_edge 4 4 3 None] [] [("schema_version", "1")] 1 4 4 0.
(** ... and the same edges with b->t inserted before a->t. *)
Definition order_store_2 : Store :=
  mkStore [c_py] abt_symbols
    [call_edge 1 3 1 None; call_edge 2 2 1 (Some [("confidence", MNum 1)]);
     call_edge 3 4 2 None; call_edge 4 4 3 None] [] [("schema_version", "1")] 1 4 4 0.

(** The spec's cycle scenario: [c.py] with [a] calling [b] and [b] calling [a]. *)
Definition cycle_store : Store :=
  mkStore [c_py] [fsym 1 "a"; fsym 2 "b"]
    [call_edge 1 1 2 None; call_edge 2 2 1 None] [] [("schema_version", "1")] 1 2 2 0.

(** [cycle_store] after [b] is renamed [bb]. *)
Definition renamed_store : Store :=
  mkStore [c_py] [fsym 1 "a"; fsym 2 "bb"]
    [call_edge 1 1 2 None; call_edge 2 2 1 None] [] [("schema_version", "1")] 1 2 2 0.

(** A store holding one call edge 1 -> 2 in file 1. *)
Definition one_edge_store : Store :=
  mkStore [c_py] [fsym 1 "a"; fsym 2 "b"]
    [call_edge 1 1 2 (Some [("line", MNum 5)])] [] [("schema_version", "1")] 1 2 1 0.

(** A fresh store with one file and two symbols. *)
Definition two_symbol_store : Store :=
  mkStore [c_py] [fsym 1 "a"; fsym 2 "b"] [] [] [("schema_version", "1")] 1 2 0 0.

Fixpoint repeat_str (n : nat) (s : string) : string :=
  match n with O => "" | S k => s ++ repeat_str k s end.

(** 200 one-line Markdown sections. *)
Definition many_sections : string := repeat_str 200 ("# a" ++ NL).

(** A Zoom pack whose code slice has 60 lines. *)
Definition zoom60 : ZoomPack :=
  mkZoomPack "f" (Some "m.py") (Some "function") (Some 1)
    (join NL (repeat "x = 1" 60)) (Some "def f():") None [] [] "".

(** A Python file whose only call is on a non-definition line. *)
Definition call_line : string := "x = f()".

(** Counters left by an earlier run on the same indexer. *)
Definition stats_prev : IndexStats := mkStats 1 1 0 0 1 0 1 0 0 0.

End Inputs.

(** ** Predicates used in the statements below *)
Module Invariants.
Import PyStr Db Graph Indexer.
Local Open Scope Z_scope.

(** [b] does not sort strictly before [a] under the key order [lt]. *)
Definition not_after {A K : Type} (key : A -> K) (lt : K -> K -> bool) (a b : A) : Prop :=
  lt (key b) (key a) = false.


(** The files row stored for [fi]'s path agrees with the file on disk:
    same mtime, same size and the hash of its current bytes. *)
Definition synced (sha256 : string -> string) (fi : FileInfo) (st : Store) : Prop :=
  exists r, get_file (fi_path fi) st = Some r /\ f_mtime r = fi_mtime fi /\
            f_size r = fi_size fi /\ compute_file_hash sha256 fi = Some (f_content_hash r).

(** Number of edges whose far end (as chosen by [other_end]) is not yet
    among the traversal's results. *)
Definition unvisited (other_end : EdgeRow -> Z) (st : Store) (results : list Node) : nat :=
  List.length (filter (fun e => negb (in_results (other_end e) results)) (edges st)).

End Invariants.

(** ** Predicates used in the statements about the rest of the code *)
Module ExtraDefs.
Import PyStr Tokens Db Graph Indexer Parser.
Local Open Scope Z_scope.

(** Every entry of an engine's symbol cache agrees with the store. *)
Definition cache_ok (st : Store) (c : Engine.SymbolCache) : Prop :=
  forall k v, Engine.cache_get k c = Some v -> v = get_symbol k st.

(** Sum of the token counts of the sections of [l]. *)
Definition sum_tokens (l : list Section) (ic : bool) : Z :=
  fold_right (fun s acc => token_count s ic + acc) 0 l.



(** The symbol's line range contains [line] (an open end when [line_end] is [None]). *)
Definition encloses (line : Z) (s : Symbol) : Prop :=
  sy_line_start s <= line /\ match sy_line_end s with None => True | Some e => line <= e end.

(** The body of the loop of [_find_containing_symbol], on the best symbol so far. *)
Definition fcs_step (line : Z) (best : option Symbol) (s : Symbol) : option Symbol :=
  if (sy_line_start s <=? line) &&
     match sy_line_end s with None => true | Some e => line <=? e end
  then match best with
       | None => Some s
       | Some b => if sy_line_start b <? sy_line_start s then Some s else best
       end
  else best.

(** Invariant of that loop after the symbols [seen]. *)
Definition fcs_inv (line : Z) (best : option Symbol) (seen : list Symbol) : Prop :=
  match best with
  | None => forall s, In s seen -> ~ encloses line s
  | Some b => In b seen /\ encloses line b /\
              forall s, In s seen -> encloses line s -> sy_line_start s <= sy_line_start b
  end.

(** [q] is [p] with at most its code slice changed. *)
Definition same_except_code (p q : Zoom.ZoomPack) : Prop :=
  Zoom.zp_name q = Zoom.zp_name p /\ Zoom.zp_file_path q = Zoom.zp_file_path p /\
  Zoom.zp_kind q = Zoom.zp_kind p /\ Zoom.zp_line_start q = Zoom.zp_line_start p /\
  Zoom.signature q = Zoom.signature p /\ Zoom.docstring q = Zoom.docstring p /\
  Zoom.callers q = Zoom.callers p /\ Zoom.callees q = Zoom.callees p /\
  Zoom.file_context q = Zoom.file_context p.

(** The file counters of the run statistics. *)
Definition file_counts (s : IndexStats) : Z * Z * Z * Z * Z :=
  (files_scanned s, files_new s, files_changed s, files_unchanged s, files_deleted s).

(** The rows of [recs] whose path is not among [current]. *)
Definition stale_rows (current : list string) (recs : list FileRow) : list FileRow :=
  filter (fun r => negb (existsb (String.eqb (f_path r)) current)) recs.

End ExtraDefs.

(** ** Proofs *)
Module Proofs.
Import PyStr Db Graph Indexer Parser Zoom Inputs Invariants.
Local Open Scope Z_scope.


Lemma meta_lookup_app k l1 l2 :
  meta_lookup k (l1 ++ l2)%list =
  match meta_lookup k l1 with Some v => Some v | None => meta_lookup k l2 end.
Proof. induction l1 as [|[k' v'] r IH]; simpl; [reflexivity|]. destruct (String.eqb k k'); auto. Qed.

Lemma meta_lookup_filter_same k l :
  meta_lookup k (filter (fun kv => negb (String.eqb (fst kv) k)) l) = None.
Proof.
  induction l as [|[k' v'] r IH]; simpl; [reflexivity|].
  destruct (String.eqb k' k) eqn:E; simpl; [exact IH|].
  rewrite String.eqb_sym, E. exact IH.
Qed.

Lemma meta_lookup_filter_other k k' l : k <> k' ->
  meta_lookup k (filter (fun kv => negb (String.eqb (fst kv) k')) l) = meta_lookup k l.
Proof.
  intros Hne. induction l as [|[a v'] r IH]; simpl; [reflexivity|].
  destruct (String.eqb a k') eqn:E; simpl.
  - apply String.eqb_eq in E; subst a.
    destruct (String.eqb k k') eqn:E2; [apply String.eqb_eq in E2; contradiction|exact IH].
  - destruct (String.eqb k a); [reflexivity|exact IH].
Qed.

Lemma set_meta_same k v st : meta_lookup k (meta (set_meta k v st)) = Some v.
Proof.
  unfold set_meta, with_meta; simpl. rewrite meta_lookup_app, meta_lookup_filter_same.
  simpl. rewrite String.eqb_refl. reflexivity.
Qed.

Lemma set_meta_other k k' v st : k <> k' ->
  meta_lookup k (meta (set_meta k' v st)) = meta_lookup k (meta st).
Proof.
  intros Hne. unfold set_meta, with_meta; simpl. rewrite meta_lookup_app, meta_lookup_filter_other by exact Hne.
  destruct (meta_lookup k (meta st)); [reflexivity|]. simpl.
  destruct (String.eqb k k') eqn:E; [apply String.eqb_eq in E; contradiction|reflexivity].
Qed.

(** Claim C2 (code bug): a stored schema version above [SCHEMA_VERSION]
    is not rejected. For every store whose [schema_version] parses to an
    integer [v > 1], [connect] succeeds, and the schema is "migrated":
    the stored version is overwritten with ["1"] (and [migrated_at] is
    stamped). No error is raised and the version is rewritten. *)
Theorem connect_accepts_future_version (now v : Z) (sv : string) (st : Store) :
  meta_lookup "schema_version" (meta st) = Some sv ->
  py_int sv = Some v -> SCHEMA_VERSION < v ->
  connect now st = Ok tt (migrate_schema v SCHEMA_VERSION now st) /\
  meta_lookup "schema_version" (meta (migrate_schema v SCHEMA_VERSION now st)) = Some "1".
Proof.
  intros Hl Hi Hv. split.
  - unfold connect, init_schema, get_schema_version. rewrite Hl, Hi.
    unfold SCHEMA_VERSION in *.
    replace (v =? 0) with false by (symmetry; apply Z.eqb_neq; lia).
    replace (v =? 1) with false by (symmetry; apply Z.eqb_neq; lia). reflexivity.
  - unfold migrate_schema. rewrite set_meta_other by discriminate.
    apply set_meta_same.
Qed.

(** Claim C2, witness: a store written by schema version 2. *)
Lemma connect_accepts_future_version_witness :
  meta_lookup "schema_version" (meta future_store) = Some "2" /\
  py_int "2" = Some 2 /\ SCHEMA_VERSION < 2 /\
  (connect 1700000000 future_store = Ok tt (migrate_schema 2 SCHEMA_VERSION 1700000000 future_store) /\
   meta_lookup "schema_version" (meta (migrate_schema 2 SCHEMA_VERSION 1700000000 future_store)) = Some "1").
Proof.
  split; [reflexivity|]. split; [reflexivity|]. split; [unfold SCHEMA_VERSION; lia|].
  apply (connect_accepts_future_version 1700000000 2 "2" future_store);
    [reflexivity|reflexivity|unfold SCHEMA_VERSION; lia].
Defined.

(** Claim C4 (code bug): the truncated text can exceed [B * 1.1] tokens.
    Truncating 200 one-line sections (["# a"], 228 tokens) to a budget
    of 100 tokens gives a text of 183 tokens, and [10 * 183 > 11 * 100].
    The kept sections are counted one by one, each count floored and
    without the blank lines that join them, and the notice is appended
    after the budget check. *)
Theorem truncate_to_budget_exceeds_slack :
  Tokens.estimate_tokens (Tokens.truncate_to_budget many_sections 100 false true) false = 183 /\
  Tokens.estimate_tokens many_sections false = 228 /\
  ~ (10 * Tokens.estimate_tokens (Tokens.truncate_to_budget many_sections 100 false true) false <= 11 * 100).
Proof.
  assert (H : Tokens.estimate_tokens (Tokens.truncate_to_budget many_sections 100 false true) false = 183)
    by (vm_compute; reflexivity).
  split; [exact H|]. split; [vm_compute; reflexivity|]. rewrite H. lia.
Qed.

(** Claim C7 (code bug): [add_edge] cannot store a new tuple. Whenever
    no row with the (source, target, kind, file) tuple exists, the INSERT
    names a [confidence] column that the [edges] table does not have, so
    the call raises [OperationalError] and no row is ever created. *)
Theorem add_edge_new_tuple_fails (st : Store) (s t : Z) (k : string) (f : Z) (c : Q) (md : Metadata) :
  find_edge s t k f st = None ->
  add_edge s t k f c md st = Err (OperationalError "table edges has no column named confidence").
Proof. intros H. unfold add_edge. rewrite H. reflexivity. Qed.

(** Claim C7, witness: the first call edge of a store with two symbols. *)
Lemma add_edge_new_tuple_fails_witness :
  find_edge 1 2 "call" 1 two_symbol_store = None /\
  add_edge 1 2 "call" 1 (9 # 10) [] two_symbol_store =
    Err (OperationalError "table edges has no column named confidence").
Proof. split; [reflexivity|]. apply add_edge_new_tuple_fails. reflexivity. Defined.

(** Claim C10: when a row with the (source, target, kind, file) tuple
    exists, [add_edge] returns that row's id and leaves the whole store,
    hence that row's confidence and metadata, unchanged, for every
    confidence and metadata argument. *)
Theorem add_edge_existing_keeps_store (st : Store) (s t : Z) (k : string) (f : Z) (c : Q)
  (md : Metadata) (e : EdgeRow) :
  find_edge s t k f st = Some e -> add_edge s t k f c md st = Ok (e_id e) st.
Proof. intros H. unfold add_edge. rewrite H. reflexivity. Qed.

(** Claim C10, witness: re-adding the stored edge 1 -> 2 with other
    confidence and metadata. *)
Lemma add_edge_existing_keeps_store_witness :
  find_edge 1 2 "call" 1 one_edge_store = Some (call_edge 1 1 2 (Some [("line", MNum 5)])) /\
  add_edge 1 2 "call" 1 (3 # 10) [("confidence", MNum (1 # 10))] one_edge_store = Ok 1 one_edge_store.
Proof. split; [reflexivity|]. apply (add_edge_existing_keeps_store _ _ _ _ _ _ _ (call_edge 1 1 2 (Some [("line", MNum 5)]))). reflexivity. Defined.

(** Claim C1, counterexample: indexing the repository [m.py] stores one
    symbol (not two) and no edge, and [callers("f")] is empty. *)
Lemma index_m_py_counterexample :
  exists stats st, index m_py_sha256 1700000000 false [m_py] empty_store = Some (stats, st) /\
    List.length (symbols st) = 1%nat /\ edges st = [] /\ Graph.callers st (TName "f") 1 0 = Done [].
Proof. do 2 eexists. split; [vm_compute; reflexivity|]. vm_compute. auto. Qed.

(** Claim C1 (corrected): [index] uses the placeholder parser. For every
    hash function and clock, indexing a fresh store with the one file
    [m.py] yields one files row, one symbol ([m], kind [file], line 1),
    no edge, and both [callers("f", depth=1)] and [callees("g", depth=1)]
    return no node. *)
Theorem index_m_py_placeholder (sha256 : string -> string) (now : Z) :
  exists stats st, index sha256 now false [m_py] empty_store = Some (stats, st) /\
    List.length (files st) = 1%nat /\
    map (fun s => (s_name s, s_kind s, s_line_start s)) (symbols st) = [("m", "file", 1)] /\
    edges st = [] /\
    Graph.callers st (TName "f") 1 0 = Done [] /\ Graph.callees st (TName "g") 1 0 = Done [].
Proof. do 2 eexists. split; [vm_compute; reflexivity|]. vm_compute. auto 10. Qed.

(** Claim C8, counterexample: when tree-sitter fails, the regex fallback
    emits the call [f()] of ["x = f()"] with confidence 0.3, while the
    formula gives 0.6 for ["f"]. *)
Lemma regex_fallback_counterexample :
  map cs_confidence (parse_callsites TSFailed "python" call_line []) = [3 # 10]%Q /\
  map cs_callee_text (parse_callsites TSFailed "python" call_line []) = ["f"] /\
  (calculate_call_confidence "f" == 6 # 10)%Q.
Proof. split; [reflexivity|]. split; [reflexivity|]. reflexivity. Qed.

(** Claim C6 (code bug): [order_store_1] and [order_store_2] hold the same
    symbols and the same four edges (source, target, kind, file and
    metadata), inserted in two orders. [callers] of [t] at depth 2 returns
    [ab] with confidence 0.9 (path ab -> a -> t) on the first store and
    0.81 (path ab -> b -> t) on the second: the search keeps the first path
    that reaches a node although a later path has a higher confidence, so
    both the confidences and the order of the results depend on the
    insertion order. *)
Theorem callers_keeps_first_path :
  files order_store_1 = files order_store_2 /\
  symbols order_store_1 = symbols order_store_2 /\
  Permutation
    (map (fun e => (e_source_id e, e_target_id e, e_kind e, e_file_id e, e_metadata e)) (edges order_store_1))
    (map (fun e => (e_source_id e, e_target_id e, e_kind e, e_file_id e, e_metadata e)) (edges order_store_2)) /\
  Graph.callers order_store_1 (TId 1) 2 0 =
    Done [mkNode 2 "a" "function" "c.py" 2 1 1; mkNode 4 "ab" "function" "c.py" 4 (9 # 10) 2;
          mkNode 3 "b" "function" "c.py" 3 (9 # 10) 1] /\
  Graph.callers order_store_2 (TId 1) 2 0 =
    Done [mkNode 2 "a" "function" "c.py" 2 1 1; mkNode 3 "b" "function" "c.py" 3 (9 # 10) 1;
          mkNode 4 "ab" "function" "c.py" 4 (81 # 100) 2].
Proof.
  split; [reflexivity|]. split; [reflexivity|]. split; [apply perm_swap|].
  split; vm_compute; reflexivity.
Qed.

Lemma set_code_slice_twice p a b : set_code_slice (set_code_slice p a) b = set_code_slice p b.
Proof. destruct p; reflexivity. Qed.

Lemma code_loop_next f b s s' : code_step b s = CNext s' -> code_loop (S f) b s = code_loop f b s'.
Proof. intros H. simpl. rewrite H. reflexivity. Qed.

Lemma code_loop_stuck b fuel mx p : mx < 0 ->
  fits (set_code_slice p (NL ++ "# ... truncated")) b = false ->
  code_loop fuel b (mkCodeLoop [] mx p) = None.
Proof.
  revert mx p. induction fuel as [|fuel IH]; intros mx p Hmx Hf; [reflexivity|].
  rewrite (code_loop_next _ _ _ (mkCodeLoop [] (mx - 10) (set_code_slice p (NL ++ "# ... truncated")))).
  - apply IH; [lia|]. rewrite set_code_slice_twice. exact Hf.
  - unfold code_step. simpl max_code_lines. simpl code_lines.
    replace (mx <? Z.of_nat (List.length (@nil string))) with true by (symmetry; apply Z.ltb_lt; simpl; lia).
    unfold list_slice_to. destruct (0 <=? mx); rewrite firstn_nil;
      change (join NL [] ++ NL ++ "# ... truncated") with (NL ++ "# ... truncated");
      cbn [cl_pack]; rewrite Hf; reflexivity.
Qed.

(** Claim C9 (code bug): the code-trimming loop keeps no minimum. For
    the 60-line pack [zoom60] and a budget of 40 tokens it never ends
    (no number of iterations suffices, the slice is empty from the sixth
    one on); with a budget of 60 it returns a pack whose code slice keeps
    no line of code at all. *)
Theorem truncate_pack_never_returns (fuel : nat) :
  truncate_pack fuel zoom60 40 = None /\
  option_map code_slice (truncate_pack 100 zoom60 60) = Some (NL ++ "# ... truncated").
Proof.
  split; [|vm_compute; reflexivity].
  unfold truncate_pack.
  do 6 (destruct fuel as [|fuel]; [reflexivity|];
        erewrite code_loop_next by (vm_compute; reflexivity)).
  rewrite code_loop_stuck; [reflexivity|lia|vm_compute; reflexivity].
Qed.


(** Sorting *)
Section SortFacts.
Context {A K : Type} (key : A -> K) (lt : K -> K -> bool).

Lemma insert_by_perm x l : Permutation (insert_by key lt x l) (x :: l).
Proof.
  induction l as [|y r IH]; simpl; [reflexivity|].
  destruct (lt (key x) (key y)); [reflexivity|].
  rewrite IH. apply perm_swap.
Qed.

Lemma fold_insert_perm l acc :
  Permutation (fold_left (fun acc x => insert_by key lt x acc) l acc) (l ++ acc).
Proof.
  revert acc; induction l as [|a l IH]; intros acc; simpl; [reflexivity|].
  rewrite IH, insert_by_perm. symmetry. apply Permutation_middle.
Qed.

Lemma sort_by_in x l : In x (sort_by key lt l) <-> In x l.
Proof.
  unfold sort_by. split; intros H.
  - apply (Permutation_in _ (fold_insert_perm l [])) in H. rewrite app_nil_r in H. exact H.
  - apply (Permutation_in _ (Permutation_sym (fold_insert_perm l []))). rewrite app_nil_r. exact H.
Qed.

Hypothesis lt_asym : forall a b, lt a b = true -> lt b a = false.

Lemma insert_by_sorted x l : Sorted (not_after key lt) l -> Sorted (not_after key lt) (insert_by key lt x l).
Proof.
  induction l as [|y r IH]; intros Hs; simpl.
  - repeat constructor.
  - destruct (lt (key x) (key y)) eqn:E.
    + constructor; [exact Hs|]. constructor. unfold not_after. apply lt_asym. exact E.
    + apply Sorted_inv in Hs as [Hr Hh]. constructor; [apply IH; exact Hr|].
      destruct r as [|z r']; simpl.
      * constructor. exact E.
      * destruct (lt (key x) (key z)); constructor; [exact E|].
        apply HdRel_inv in Hh. exact Hh.
Qed.

Lemma sort_by_sorted l : Sorted (not_after key lt) (sort_by key lt l).
Proof.
  unfold sort_by. assert (H : Sorted (not_after key lt) []) by constructor.
  revert H. generalize (@nil A). induction l as [|a l IH]; intros acc Hacc; simpl; [exact Hacc|].
  apply IH. apply insert_by_sorted. exact Hacc.
Qed.
End SortFacts.

Lemma sorted_weaken {A} (R R' : A -> A -> Prop) l :
  (forall a b, R a b -> R' a b) -> Sorted R l -> Sorted R' l.
Proof.
  intros HR Hs. induction Hs as [|a l Hs IH Hh]; constructor; [exact IH|].
  destruct Hh; constructor. apply HR. assumption.
Qed.







(** Termination of the traversal *)
Lemma count_filter_lt {A} (f g : A -> bool) (l : list A) (x : A) :
  (forall y, g y = true -> f y = true) -> In x l -> f x = true -> g x = false ->
  (List.length (filter g l) < List.length (filter f l))%nat.
Proof.
  intros Hgf. induction l as [|y r IH]; intros Hin Hf Hg; [destruct Hin|].
  simpl. destruct Hin as [<-|Hin].
  - rewrite Hf, Hg. simpl.
    assert (Hle : forall l', (List.length (filter g l') <= List.length (filter f l'))%nat).
    { induction l' as [|z l' IHl']; simpl; [lia|].
      destruct (g z) eqn:E; [rewrite (Hgf _ E); simpl; lia|]. destruct (f z); simpl; lia. }
    specialize (Hle r). lia.
  - specialize (IH Hin Hf Hg). destruct (g y) eqn:E; [rewrite (Hgf _ E); simpl; lia|].
    destruct (f y); simpl; lia.
Qed.

Lemma count_filter_le {A} (f g : A -> bool) (l : list A) :
  (forall y, g y = true -> f y = true) ->
  (List.length (filter g l) <= List.length (filter f l))%nat.
Proof.
  intros Hgf. induction l as [|z l' IHl']; simpl; [lia|].
  destruct (g z) eqn:E; [rewrite (Hgf _ E); simpl; lia|]. destruct (f z); simpl; lia.
Qed.

Lemma in_results_app id r n :
  in_results id (r ++ [n])%list = in_results id r || (n_symbol_id n =? id).
Proof. unfold in_results. rewrite existsb_app. simpl. rewrite orb_false_r. reflexivity. Qed.

Section Termination.
Variable next_edges : Z -> Store -> list (EdgeRow * SymbolRow).
Variable other_end : EdgeRow -> Z.
Variable st : Store.
Variable start : Z.
Variable depth : Z.
Variable min_conf : Q.
Hypothesis next_edges_sub : forall c e s, In (e, s) (next_edges c st) -> In e (edges st).

Lemma scan_edges_measure es cd cc res added res' added' :
  (forall e s, In (e, s) es -> In e (edges st)) ->
  scan_edges other_end st start min_conf es cd cc res added = Some (res', added') ->
  (List.length added' + unvisited other_end st res' <= List.length added + unvisited other_end st res)%nat /\
  (forall n, In n res' -> In n res \/ n_symbol_id n <> start).
Proof.
  revert res added. induction es as [|[e s0] r IH]; intros res added Hsub H; simpl in H.
  - injection H as <- <-. split; [lia|auto].
  - assert (Hsub' : forall e s, In (e, s) r -> In e (edges st)) by (intros; eapply Hsub; right; eassumption).
    destruct (other_end e =? start) eqn:Es; [exact (IH _ _ Hsub' H)|].
    destruct (in_results (other_end e) res) eqn:Ei; [exact (IH _ _ Hsub' H)|].
    destruct (extract_confidence e) as [c|]; [|discriminate].
    destruct (Qlt_bool (cc * c) min_conf); [exact (IH _ _ Hsub' H)|].
    destruct (get_symbol (other_end e) st) as [[sym path]|]; [|exact (IH _ _ Hsub' H)].
    destruct (IH _ _ Hsub' H) as [Hm Hn]. split.
    + rewrite length_app in Hm. simpl in Hm.
      assert (Hlt : (unvisited other_end st (res ++ [mkNode (other_end e) (s_name sym) (s_kind sym) path
                                  (s_line_start sym) (cc * c) (cd + 1)]) < unvisited other_end st res)%nat).
      { unfold unvisited. apply (count_filter_lt _ _ _ e).
        - intros y Hy. rewrite in_results_app in Hy. apply negb_true_iff in Hy.
          apply orb_false_iff in Hy as [Hy _]. rewrite Hy. reflexivity.
        - eapply Hsub. left. reflexivity.
        - rewrite Ei. reflexivity.
        - rewrite in_results_app, Z.eqb_refl, orb_true_r. reflexivity. }
      lia.
    + intros n Hin. destruct (Hn n Hin) as [Hin'|Hne]; [|right; exact Hne].
      apply in_app_or in Hin' as [Hin'|[<-|[]]]; [left; exact Hin'|right].
      simpl. apply Z.eqb_neq. exact Es.
Qed.

Lemma bfs_terminates fuel queue res :
  (List.length queue + unvisited other_end st res <= fuel)%nat ->
  bfs next_edges other_end st start depth min_conf fuel queue res <> OutOfFuel /\
  (forall l, bfs next_edges other_end st start depth min_conf fuel queue res = Done l ->
   forall n, In n l -> In n res \/ n_symbol_id n <> start).
Proof.
  revert queue res. induction fuel as [|fuel IH]; intros queue res Hf.
  - destruct queue; [|simpl in Hf; lia]. simpl. split; [discriminate|].
    intros l H. injection H as <-. auto.
  - destruct queue as [|[[cid cd] cc] q]; simpl.
    { split; [discriminate|]. intros l H. injection H as <-. auto. }
    simpl in Hf. destruct (depth <=? cd).
    + apply IH. lia.
    + destruct (scan_edges other_end st start min_conf (next_edges cid st) cd cc res []) as [[res' added]|] eqn:Hs;
        [|split; [discriminate|intros; discriminate]].
      destruct (scan_edges_measure _ _ _ _ _ _ _ (fun e s H => next_edges_sub cid e s H) Hs) as [Hm Hn].
      simpl in Hm. destruct (IH (q ++ added)%list res') as [H1 H2]; [rewrite length_app; lia|].
      split; [exact H1|]. intros l Hl n Hin. destruct (H2 l Hl n Hin) as [Hr|Hr]; [|right; exact Hr].
      exact (Hn n Hr).
Qed.
End Termination.

Lemma unvisited_le oe st res : (unvisited oe st res <= List.length (edges st))%nat.
Proof. unfold unvisited. apply filter_length_le. Qed.

Lemma traverse_terminates ne oe st id d m :
  (forall c e s, In (e, s) (ne c st) -> In e (edges st)) ->
  traverse ne oe st (TId id) d m <> OutOfFuel /\
  (forall l, traverse ne oe st (TId id) d m = Done l -> ~ In id (map n_symbol_id l)).
Proof.
  intros Hsub. unfold traverse.
  destruct (bfs_terminates ne oe st id d m Hsub (S (List.length (edges st))) [(id, 0, 1%Q)] [])
    as [H1 H2]; [simpl; pose proof (unvisited_le oe st []); lia|].
  destruct (bfs ne oe st id d m _ _ _) as [r| |] eqn:E; try (split; [discriminate|intros; discriminate]).
  - split; [discriminate|]. intros l Hl Hin. injection Hl as <-.
    apply in_map_iff in Hin as [n [Hid Hin]]. apply sort_by_in in Hin.
    destruct (H2 r eq_refl n Hin) as [[]|Hne]. contradiction.
  - split; [exact H1|intros; discriminate].
Qed.

Lemma incoming_sub c st e s : In (e, s) (get_incoming_edges c st) -> In e (edges st).
Proof.
  unfold get_incoming_edges. intros H. apply in_flat_map in H as [e' [Hin H]].
  destruct (e_target_id e' =? c); [|destruct H].
  destruct (find_symbol (e_source_id e') st); [|destruct H].
  destruct H as [H|[]]. injection H as <- _. exact Hin.
Qed.

Lemma outgoing_sub c st e s : In (e, s) (get_outgoing_edges c st) -> In e (edges st).
Proof.
  unfold get_outgoing_edges. intros H. apply in_flat_map in H as [e' [Hin H]].
  destruct (e_source_id e' =? c); [|destruct H].
  destruct (find_symbol (e_target_id e') st); [|destruct H].
  destruct H as [H|[]]. injection H as <- _. exact Hin.
Qed.

(** Claim C5: for every store (in particular one with a cycle A -> B -> A),
    every symbol id [a], depth and minimum confidence, the traversal of
    [callers] finishes within [1 + len(edges)] iterations, and a result
    list never contains [a] itself. *)
Theorem callers_terminates_without_start st a d m :
  Graph.callers st (TId a) d m <> OutOfFuel /\
  (forall l, Graph.callers st (TId a) d m = Done l -> ~ In a (map n_symbol_id l)).
Proof. apply traverse_terminates. intros c e s. apply incoming_sub. Qed.

Lemma cycle_callers : Graph.callers cycle_store (TId 1) 10 0 =
  Done [mkNode 2 "b" "function" "c.py" 2 (9 # 10) 1].
Proof. vm_compute. reflexivity. Qed.

(** Claim C8 (corrected): a call site found through tree-sitter (query
    captures or tree walk) has the confidence of
    [_calculate_call_confidence]; one found by the regex fallback has 0.6
    when its callee contains a dot and 0.3 otherwise. *)
Theorem callsite_confidence_by_path run language content symbols cs :
  In cs (parse_callsites run language content symbols) ->
  match run with
  | TSFailed => cs_confidence cs = (if contains_dot (cs_callee_text cs) then 6 # 10 else 3 # 10)%Q
  | _ => cs_confidence cs = calculate_call_confidence (cs_callee_text cs)
  end.
Proof.
  destruct run as [caps|found|]; simpl; intros H.
  - apply in_map_iff in H as [n [<- _]]. reflexivity.
  - apply in_map_iff in H as [n [<- _]]. reflexivity.
  - unfold regex_fallback_callsites in H.
    destruct (String.eqb (strip content) ""); [destruct H|].
    destruct (String.eqb language "python"); [|destruct H].
    apply in_flat_map in H as [[i line] [_ H]].
    destruct (class_match line || func_match line); [destruct H|].
    apply in_map_iff in H as [callee [<- _]]. reflexivity.
Qed.

(** Claim C8, witness: the fallback call site of ["x = f()"]. *)
Lemma callsite_confidence_by_path_witness :
  In (mkCallsite "f" 1 None None (3 # 10) None) (parse_callsites TSFailed "python" call_line []) /\
  cs_confidence (mkCallsite "f" 1 None None (3 # 10) None) =
    (if contains_dot "f" then 6 # 10 else 3 # 10)%Q.
Proof.
  split; [vm_compute; left; reflexivity|].
  exact (callsite_confidence_by_path TSFailed "python" call_line [] _ (ltac:(vm_compute; left; reflexivity))).
Defined.

Lemma find_map {A B} (p : B -> bool) (g : A -> B) l :
  List.find p (map g l) = option_map g (List.find (fun x => p (g x)) l).
Proof. induction l as [|a l IH]; simpl; [reflexivity|]. destruct (p (g a)); auto. Qed.

Lemma find_ext {A} (p q : A -> bool) l : (forall x, p x = q x) -> List.find p l = List.find q l.
Proof. intros H. induction l as [|a l IH]; simpl; [reflexivity|]. rewrite H, IH. reflexivity. Qed.

Lemma find_app {A} (p : A -> bool) l1 l2 :
  List.find p (l1 ++ l2) = match List.find p l1 with Some x => Some x | None => List.find p l2 end.
Proof. induction l1 as [|a l IH]; simpl; [reflexivity|]. destruct (p a); auto. Qed.

Lemma get_file_files q st st' : files st = files st' -> get_file q st = get_file q st'.
Proof. unfold get_file. intros ->. reflexivity. Qed.

Lemma add_file_get_same path mtime size h lang now st :
  exists id, get_file path (snd (add_file path mtime size h lang now st)) =
             Some (mkFileRow id path mtime size h now lang).
Proof.
  unfold add_file. destruct (get_file path st) as [f|] eqn:E.
  - exists (f_id f). unfold get_file, with_files in *; simpl. rewrite find_map.
    rewrite (find_ext _ (fun g => String.eqb (f_path g) path)).
    + rewrite E. simpl. apply find_some in E as [_ E]. rewrite E. reflexivity.
    + intros x. destruct (String.eqb (f_path x) path) eqn:Ex; simpl; [apply String.eqb_refl|exact Ex].
  - exists (seq_files st + 1). unfold get_file in *; simpl. rewrite find_app, E. simpl.
    rewrite String.eqb_refl. reflexivity.
Qed.

Lemma add_file_get_other q path mtime size h lang now st : q <> path ->
  get_file q (snd (add_file path mtime size h lang now st)) = get_file q st.
Proof.
  intros Hq. unfold add_file. destruct (get_file path st) as [f|] eqn:E.
  - unfold get_file, with_files in *; simpl. rewrite find_map.
    rewrite (find_ext _ (fun g => String.eqb (f_path g) q)).
    + destruct (List.find (fun g => String.eqb (f_path g) q) (files st)) as [x|] eqn:Ex; [|reflexivity].
      apply find_some in Ex as [_ Ex]. apply String.eqb_eq in Ex. simpl.
      replace (String.eqb (f_path x) path) with false by (symmetry; apply String.eqb_neq; congruence).
      reflexivity.
    + intros x. destruct (String.eqb (f_path x) path) eqn:Ex; simpl; [|reflexivity].
      apply String.eqb_eq in Ex. rewrite Ex.
      transitivity false; [apply String.eqb_neq; congruence|symmetry; apply String.eqb_neq; congruence].
  - unfold get_file in *; simpl. rewrite find_app.
    destruct (List.find (fun f => String.eqb (f_path f) q) (files st)); [reflexivity|].
    simpl. replace (String.eqb path q) with false by (symmetry; apply String.eqb_neq; congruence).
    reflexivity.
Qed.

Lemma add_file_rows r path mtime size h lang now st :
  In r (files (snd (add_file path mtime size h lang now st))) -> In r (files st) \/ f_path r = path.
Proof.
  unfold add_file. destruct (get_file path st) as [f|]; simpl; intros H.
  - apply in_map_iff in H as [x [<- Hx]]. destruct (String.eqb (f_path x) path) eqn:E.
    + right. reflexivity.
    + left. exact Hx.
  - apply in_app_or in H as [H|[<-|[]]]; [left; exact H|right; reflexivity].
Qed.

Lemma filter_memZ_nil {A} (key : A -> Z) l : filter (fun x => negb (memZ (key x) [])) l = l.
Proof.
  induction l as [|a l IH]; [reflexivity|]. cbn [filter].
  change (negb (memZ (key a) [])) with true. rewrite IH. reflexivity.
Qed.

Lemma delete_symbols_files fid st : files (snd (delete_symbols_in_file fid st)) = files st.
Proof. unfold delete_symbols_in_file, cascade. cbn [files]. apply (filter_memZ_nil f_id). Qed.

Lemma add_symbols_tables fid syms smap st stats st' stats' :
  add_symbols fid syms smap st stats = Some (st', stats') ->
  files st' = files st /\ meta st' = meta st.
Proof.
  revert smap st stats. induction syms as [|s rest IH]; intros smap st stats H; simpl in H.
  - injection H as <- _. auto.
  - match type of H with context [add_symbol ?a ?b ?c ?d ?e ?f ?g ?h ?i ?j st] =>
      destruct (add_symbol a b c d e f g h i j st) as [sid sta|err] eqn:E end; [|discriminate].
    destruct (IH _ _ _ H) as [H1 H2]. unfold add_symbol in E.
    destruct (get_file_by_id fid st); [|discriminate].
    match type of E with context [if negb ?b then _ else _] => destruct (negb b) end; [discriminate|].
    injection E as _ <-. simpl in *. auto.
Qed.

(** [index_file] only touches the files table through [add_file]. *)
Lemma index_file_files sha256 now fi st stats c : fi_content fi = Some c ->
  files (fst (index_file sha256 now fi st stats)) =
  files (snd (add_file (fi_path fi) (fi_mtime fi) (fi_size fi) (sha256 c) (fi_language fi) now st)) /\
  meta (fst (index_file sha256 now fi st stats)) = meta st.
Proof.
  intros Hc. unfold index_file, compute_file_hash, option_map. rewrite Hc. cbv beta iota zeta.
  destruct (add_file (fi_path fi) (fi_mtime fi) (fi_size fi) (sha256 c) (fi_language fi) now st)
    as [fid st1] eqn:Ea. cbv beta iota zeta.
  assert (Hm1 : meta st1 = meta st).
  { unfold add_file in Ea. destruct (get_file (fi_path fi) st); injection Ea as _ <-; reflexivity. }
  match goal with |- context [add_symbols ?a ?b ?c ?d ?e] =>
    destruct (add_symbols a b c d e) as [[st4 stats2]|] eqn:Es end; cbn [fst].
  - destruct (add_symbols_tables _ _ _ _ _ _ _ Es) as [H1 H2].
    rewrite H1, H2. unfold delete_edges_in_file. cbn [files meta snd].
    rewrite delete_symbols_files. split; [reflexivity|exact Hm1].
  - unfold delete_edges_in_file. cbn [files meta snd].
    rewrite delete_symbols_files. split; [reflexivity|exact Hm1].
Qed.

Lemma index_file_facts sha256 now fi st stats c : fi_content fi = Some c ->
  synced sha256 fi (fst (index_file sha256 now fi st stats)) /\
  (forall q, q <> fi_path fi -> get_file q (fst (index_file sha256 now fi st stats)) = get_file q st) /\
  (forall r, In r (files (fst (index_file sha256 now fi st stats))) -> In r (files st) \/ f_path r = fi_path fi) /\
  meta (fst (index_file sha256 now fi st stats)) = meta st.
Proof.
  intros Hc. destruct (index_file_files sha256 now fi st stats c Hc) as [Hf Hm].
  split; [|split; [|split]].
  - destruct (add_file_get_same (fi_path fi) (fi_mtime fi) (fi_size fi) (sha256 c) (fi_language fi) now st)
      as [id Hid].
    exists (mkFileRow id (fi_path fi) (fi_mtime fi) (fi_size fi) (sha256 c) now (fi_language fi)).
    rewrite (get_file_files _ _ _ Hf), Hid. unfold compute_file_hash. rewrite Hc. auto.
  - intros q Hq. rewrite (get_file_files _ _ _ Hf). apply add_file_get_other. exact Hq.
  - intros r Hr. rewrite Hf in Hr. apply add_file_rows in Hr. exact Hr.
  - exact Hm.
Qed.

Lemma should_reindex_false sha256 fi r :
  should_reindex sha256 fi (Some r) = Some false ->
  f_mtime r = fi_mtime fi /\ f_size r = fi_size fi /\ compute_file_hash sha256 fi = Some (f_content_hash r).
Proof.
  unfold should_reindex. destruct (fi_mtime fi =? f_mtime r) eqn:E1; simpl; [|discriminate].
  destruct (fi_size fi =? f_size r) eqn:E2; simpl; [|discriminate].
  destruct (compute_file_hash sha256 fi) as [h|]; [|discriminate].
  intros H. injection H as H. apply negb_false_iff, String.eqb_eq in H. subst h.
  apply Z.eqb_eq in E1, E2. auto.
Qed.

Lemma should_reindex_synced sha256 fi st : synced sha256 fi st ->
  should_reindex sha256 fi (get_file (fi_path fi) st) = Some false.
Proof.
  intros [r [Hg [Hm [Hs Hh]]]]. rewrite Hg. unfold should_reindex.
  rewrite Hm, Hs, Z.eqb_refl, Z.eqb_refl, Hh. simpl. rewrite String.eqb_refl. reflexivity.
Qed.

Lemma process_first_run sha256 now force fis st stats st' stats' :
  NoDup (map fi_path fis) -> (forall fi, In fi fis -> fi_content fi <> None) ->
  process sha256 now force fis st stats = Some (st', stats') ->
  (forall fi, In fi fis -> synced sha256 fi st') /\
  (forall q, ~ In q (map fi_path fis) -> get_file q st' = get_file q st) /\
  (forall r, In r (files st') -> In r (files st) \/ In (f_path r) (map fi_path fis)) /\
  meta st' = meta st.
Proof.
  revert st stats. induction fis as [|fi rest IH]; intros st stats Hnd Hrd H; simpl in H.
  - injection H as <- _. split; [intros _ []|]. split; [reflexivity|]. split; [auto|reflexivity].
  - simpl in Hnd. apply NoDup_cons_iff in Hnd as [Hnin Hnd].
    assert (Hrd' : forall fi', In fi' rest -> fi_content fi' <> None) by (intros; apply Hrd; right; assumption).
    destruct (fi_content fi) as [c|] eqn:Hc; [|exfalso; apply (Hrd fi); [left; reflexivity|exact Hc]].
    destruct (if force then Some true else should_reindex sha256 fi (get_file (fi_path fi) st))
      as [[|]|] eqn:Hgo; [| |discriminate].
    + destruct (index_file sha256 now fi st _) as [sta statsa] eqn:Ei.
      destruct (index_file_facts sha256 now fi st
                 (match get_file (fi_path fi) st with Some _ => inc_changed stats | None => inc_new stats end) c Hc)
        as [Hs [Hq [Hr Hm]]].
      rewrite Ei in Hs, Hq, Hr, Hm. simpl in Hs, Hq, Hr, Hm.
      destruct (IH _ _ Hnd Hrd' H) as [Hs' [Hq' [Hr' Hm']]].
      split; [|split; [|split]].
      * intros fi' [<-|Hin]; [|exact (Hs' _ Hin)].
        destruct Hs as [r0 [Hg Hrest]]. exists r0. rewrite (Hq' _ Hnin). auto.
      * intros q Hnq. simpl in Hnq. rewrite Hq' by tauto. apply Hq. intros ->. tauto.
      * intros r Hin. destruct (Hr' r Hin) as [Hin'|Hin']; [|right; right; exact Hin'].
        destruct (Hr r Hin') as [H'|H']; [left; exact H'|right; left; symmetry; exact H'].
      * congruence.
    + destruct (IH _ _ Hnd Hrd' H) as [Hs' [Hq' [Hr' Hm']]].
      assert (Hsy : synced sha256 fi st).
      { destruct force; [discriminate|].
        destruct (get_file (fi_path fi) st) as [r|] eqn:Eg; [|discriminate].
        apply should_reindex_false in Hgo. exists r. auto. }
      split; [|split; [|split]].
      * intros fi' [<-|Hin]; [|exact (Hs' _ Hin)].
        destruct Hsy as [r0 [Hg Hrest]]. exists r0. rewrite (Hq' _ Hnin). auto.
      * intros q Hnq. simpl in Hnq. apply Hq'. tauto.
      * intros r Hin. destruct (Hr' r Hin) as [Hin'|Hin']; [left; exact Hin'|right; right; exact Hin'].
      * exact Hm'.
Qed.

Lemma existsb_eqb_in s l : existsb (String.eqb s) l = true <-> In s l.
Proof.
  rewrite existsb_exists. split.
  - intros [x [Hx E]]. apply String.eqb_eq in E. subst. exact Hx.
  - intros H. exists s. split; [exact H|apply String.eqb_refl].
Qed.

Lemma delete_file_rows r p st :
  In r (files (snd (delete_file p st))) -> In r (files st) /\ f_path r <> p.
Proof.
  unfold delete_file, cascade. cbn [snd files]. intros H.
  apply filter_In in H as [Hin Hm]. split; [exact Hin|]. intros Hp.
  apply negb_true_iff in Hm. unfold memZ in Hm.
  assert (Hx : existsb (Z.eqb (f_id r)) (map f_id (filter (fun f => String.eqb (f_path f) p) (files st))) = true).
  { apply existsb_exists. exists (f_id r). split; [|apply Z.eqb_refl].
    apply in_map. apply filter_In. split; [exact Hin|]. apply String.eqb_eq. exact Hp. }
  congruence.
Qed.

Lemma remove_stale_rows current recs st stats st' stats' :
  remove_stale current recs st stats = (st', stats') ->
  (forall r, In r (files st') -> In r (files st) /\ (In r recs -> In (f_path r) current)) /\
  meta st' = meta st.
Proof.
  revert st stats. induction recs as [|r0 rest IH]; intros st stats H; simpl in H.
  - injection H as <- _. split; [intros r Hr; split; [exact Hr|intros []]|reflexivity].
  - destruct (existsb (String.eqb (f_path r0)) current) eqn:E.
    + destruct (IH _ _ H) as [Hr Hm]. split; [|exact Hm].
      intros r Hin. destruct (Hr r Hin) as [H1 H2]. split; [exact H1|].
      intros [<-|Hin']; [apply existsb_eqb_in; exact E|exact (H2 Hin')].
    + destruct (IH _ _ H) as [Hr Hm]. split; [|exact Hm].
      intros r Hin. destruct (Hr r Hin) as [H1 H2].
      apply delete_file_rows in H1 as [H1 Hp]. split; [exact H1|].
      intros [<-|Hin']; [contradiction|exact (H2 Hin')].
Qed.

Lemma remove_stale_noop current recs st stats :
  (forall r, In r recs -> In (f_path r) current) ->
  remove_stale current recs st stats = (st, stats).
Proof.
  induction recs as [|r0 rest IH]; intros H; simpl; [reflexivity|].
  replace (existsb (String.eqb (f_path r0)) current) with true
    by (symmetry; apply existsb_eqb_in; apply H; left; reflexivity).
  apply IH. intros r Hr. apply H. right. exact Hr.
Qed.

Lemma process_unchanged sha256 now fis st stats :
  (forall fi, In fi fis -> synced sha256 fi st) ->
  exists stats', process sha256 now false fis st stats = Some (st, stats') /\
    files_scanned stats' = files_scanned stats /\ files_new stats' = files_new stats /\
    files_changed stats' = files_changed stats /\ files_deleted stats' = files_deleted stats /\
    files_unchanged stats' = files_unchanged stats + Z.of_nat (List.length fis).
Proof.
  revert stats. induction fis as [|fi rest IH]; intros stats H; simpl.
  - exists stats. repeat split; lia.
  - rewrite should_reindex_synced by (apply H; left; reflexivity).
    destruct (IH (inc_unchanged stats)) as [s' [Hp Hs]]; [intros; apply H; right; assumption|].
    exists s'. split; [exact Hp|]. simpl in Hs. lia.
Qed.

Lemma z_str_one : z_str SCHEMA_VERSION = "1".
Proof. reflexivity. Qed.

Lemma connect_version now st u st' : connect now st = Ok u st' ->
  exists s, meta_lookup "schema_version" (meta st') = Some s /\ py_int s = Some 1.
Proof.
  unfold connect, init_schema, get_schema_version.
  destruct (meta_lookup "schema_version" (meta st)) as [v|] eqn:El.
  - destruct (py_int v) as [n|] eqn:Ei; [|discriminate].
    destruct (n =? 0) eqn:E0.
    + intros H. injection H as _ <-. exists "1".
      rewrite set_meta_other by discriminate. rewrite z_str_one, set_meta_same. auto.
    + destruct (negb (n =? SCHEMA_VERSION)) eqn:E1.
      * intros H. injection H as _ <-. exists "1". unfold migrate_schema.
        rewrite set_meta_other by discriminate. rewrite z_str_one, set_meta_same. auto.
      * intros H. injection H as _ <-. exists v. split; [exact El|].
        apply negb_false_iff, Z.eqb_eq in E1. rewrite Ei, E1. reflexivity.
  - intros H. injection H as _ <-. exists "1".
    rewrite set_meta_other by discriminate. rewrite z_str_one, set_meta_same. auto.
Qed.

Lemma connect_current now st s :
  meta_lookup "schema_version" (meta st) = Some s -> py_int s = Some 1 -> connect now st = Ok tt st.
Proof. intros H1 H2. unfold connect, init_schema, get_schema_version. rewrite H1, H2. reflexivity. Qed.

Lemma update_index_stats_version a b now st :
  meta_lookup "schema_version" (meta (update_index_stats a b now st)) =
  meta_lookup "schema_version" (meta st).
Proof. unfold update_index_stats. rewrite !set_meta_other by discriminate. reflexivity. Qed.

Section SameTables.
Variables st1 st2 : Store.
Hypothesis Hf : files st1 = files st2.
Hypothesis Hs : symbols st1 = symbols st2.
Hypothesis He : edges st1 = edges st2.

Lemma get_symbol_tables x : get_symbol x st1 = get_symbol x st2.
Proof. unfold get_symbol, find_symbol, get_file_by_id. rewrite Hf, Hs. reflexivity. Qed.

Lemma incoming_tables c : get_incoming_edges c st1 = get_incoming_edges c st2.
Proof. unfold get_incoming_edges, find_symbol. rewrite He, Hs. reflexivity. Qed.

Lemma outgoing_tables c : get_outgoing_edges c st1 = get_outgoing_edges c st2.
Proof. unfold get_outgoing_edges, find_symbol. rewrite He, Hs. reflexivity. Qed.

Lemma scan_edges_tables oe start m es : forall cd cc res added,
  scan_edges oe st1 start m es cd cc res added = scan_edges oe st2 start m es cd cc res added.
Proof.
  induction es as [|[e s] r IH]; intros cd cc res added; cbn [scan_edges]; [reflexivity|].
  rewrite get_symbol_tables.
  destruct (oe e =? start); [apply IH|]. destruct (in_results (oe e) res); [apply IH|].
  destruct (extract_confidence e) as [c|]; [|reflexivity].
  destruct (Qlt_bool (cc * c) m); [apply IH|].
  destruct (get_symbol (oe e) st2) as [[sy p]|]; apply IH.
Qed.

Lemma bfs_tables ne oe start d m (Hne : forall c, ne c st1 = ne c st2) fuel : forall queue res,
  bfs ne oe st1 start d m fuel queue res = bfs ne oe st2 start d m fuel queue res.
Proof.
  induction fuel as [|fuel IH]; intros queue res; cbn [bfs]; [reflexivity|].
  destruct queue as [|[[cid cd] cc] q]; [reflexivity|].
  rewrite Hne, scan_edges_tables.
  destruct (d <=? cd); [apply IH|].
  destruct (scan_edges oe st2 start m (ne cid st2) cd cc res []) as [[r a]|]; [apply IH|reflexivity].
Qed.

Lemma resolve_symbol_tables n : resolve_symbol n st1 = resolve_symbol n st2.
Proof. unfold resolve_symbol. rewrite Hs. reflexivity. Qed.

Lemma callers_callees_tables t d m :
  Graph.callers st1 t d m = Graph.callers st2 t d m /\ Graph.callees st1 t d m = Graph.callees st2 t d m.
Proof.
  unfold Graph.callers, Graph.callees, traverse.
  destruct t as [id|n];
    [|rewrite resolve_symbol_tables; destruct (resolve_symbol n st2) as [id|]; [|split; reflexivity]].
  all: rewrite He.
  all: rewrite !(bfs_tables _ _ _ _ _ incoming_tables), !(bfs_tables _ _ _ _ _ outgoing_tables).
  all: split; reflexivity.
Qed.
End SameTables.

(** Claim C3 (corrected): when every listed file is readable and the
    paths are distinct, a second [index] over the same files counts every
    file unchanged (none new, changed or deleted) and leaves the files,
    symbols, edges and callsites tables as the first run left them, so
    [callers] and [callees] answer every query as after the first run. *)
Theorem reindex_is_noop sha256 now now' force files0 st0 stats1 st1 :
  NoDup (map fi_path files0) ->
  (forall fi, In fi files0 -> fi_content fi <> None) ->
  index sha256 now force files0 st0 = Some (stats1, st1) ->
  exists stats2 st2, index sha256 now' false files0 st1 = Some (stats2, st2) /\
    files_unchanged stats2 = files_scanned stats2 /\ files_new stats2 = 0 /\
    files_changed stats2 = 0 /\ files_deleted stats2 = 0 /\
    files st2 = files st1 /\ symbols st2 = symbols st1 /\ edges st2 = edges st1 /\
    callsites st2 = callsites st1 /\
    (forall t d m, Graph.callers st2 t d m = Graph.callers st1 t d m /\
                   Graph.callees st2 t d m = Graph.callees st1 t d m).
Proof.
  intros Hnd Hrd H. unfold index in H.
  destruct (connect now st0) as [u sc|err] eqn:Ec; [|discriminate].
  destruct (connect_version _ _ _ _ Ec) as [v [Hv Hpv]].
  unfold run in H.
  destruct (remove_stale (map fi_path files0) (get_all_files sc) sc
              (set_scanned (Z.of_nat (List.length files0)) stats0)) as [sa sta] eqn:Er.
  destruct (process sha256 now force files0 sa sta) as [[sb stb]|] eqn:Ep; [|discriminate].
  injection H as <- <-.
  destruct (remove_stale_rows _ _ _ _ _ _ Er) as [Hra Hma].
  destruct (process_first_run _ _ _ _ _ _ _ _ Hnd Hrd Ep) as [Hsy [_ [Hrb Hmb]]].
  set (st1 := update_index_stats (Z.of_nat (List.length (files sb)))
                (Z.of_nat (List.length (symbols sb))) now sb).
  assert (Hpaths : forall r, In r (files st1) -> In (f_path r) (map fi_path files0)).
  { intros r Hin. destruct (Hrb r Hin) as [Hin'|Hin']; [|exact Hin'].
    destruct (Hra r Hin') as [H1 H2]. apply H2. exact H1. }
  assert (Hsy1 : forall fi, In fi files0 -> synced sha256 fi st1).
  { intros fi Hin. exact (Hsy fi Hin). }
  assert (Hc1 : connect now' st1 = Ok tt st1).
  { apply (connect_current _ _ v); [|exact Hpv].
    unfold st1. rewrite update_index_stats_version, Hmb, Hma. exact Hv. }
  destruct (process_unchanged sha256 now' files0 st1 (set_scanned (Z.of_nat (List.length files0)) stats0) Hsy1)
    as [stats2 [Hp2 [H1 [H2 [H3 [H4 H5]]]]]].
  exists stats2. eexists. split.
  - unfold index. rewrite Hc1. unfold run.
    rewrite (remove_stale_noop _ _ _ _ Hpaths), Hp2. reflexivity.
  - simpl in H1, H2, H3, H4, H5.
    split; [lia|]. split; [lia|]. split; [lia|]. split; [lia|].
    split; [reflexivity|]. split; [reflexivity|]. split; [reflexivity|]. split; [reflexivity|].
    intros t d m. apply callers_callees_tables; reflexivity.
Qed.

(** Claim C3, witness: indexing [m.py] twice. *)
Lemma reindex_is_noop_witness :
  NoDup (map fi_path [m_py]) /\ (forall fi, In fi [m_py] -> fi_content fi <> None) /\
  exists stats1 st1,
    index m_py_sha256 1700000000 false [m_py] empty_store = Some (stats1, st1) /\
    exists stats2 st2, index m_py_sha256 1700000001 false [m_py] st1 = Some (stats2, st2) /\
      files_unchanged stats2 = files_scanned stats2 /\ files_new stats2 = 0 /\
      files_changed stats2 = 0 /\ files_deleted stats2 = 0 /\
      files st2 = files st1 /\ symbols st2 = symbols st1 /\ edges st2 = edges st1 /\
      callsites st2 = callsites st1 /\
      (forall t d m, Graph.callers st2 t d m = Graph.callers st1 t d m /\
                     Graph.callees st2 t d m = Graph.callees st1 t d m).
Proof.
  assert (Hnd : NoDup (map fi_path [m_py])) by (constructor; [simpl; tauto|constructor]).
  assert (Hrd : forall fi, In fi [m_py] -> fi_content fi <> None)
    by (intros fi [<-|[]]; discriminate).
  split; [exact Hnd|]. split; [exact Hrd|].
  do 2 eexists. split; [vm_compute; reflexivity|].
  eapply (reindex_is_noop m_py_sha256 1700000000 1700000001 false [m_py] empty_store); [exact Hnd|exact Hrd|].
  vm_compute. reflexivity.
Defined.
(** Claim C3, counterexample: a listed file that cannot be read is
    counted as new (and as an error) again by the second run. *)
Lemma reindex_locked_file_counterexample :
  exists stats1 st1 stats2 st2,
    index m_py_sha256 1700000000 false [locked_py] empty_store = Some (stats1, st1) /\
    index m_py_sha256 1700000000 false [locked_py] st1 = Some (stats2, st2) /\
    files_scanned stats2 = 1 /\ files_new stats2 = 1 /\ files_unchanged stats2 = 0 /\ files_error stats2 = 1.
Proof.
  do 4 eexists. split; [vm_compute; reflexivity|]. split; [vm_compute; reflexivity|].
  vm_compute. auto.
Qed.

End Proofs.

(** * Properties of the rest of the code *)

Module ExTokens.
Import PyStr Tokens ExtraDefs.
Local Open Scope Z_scope.

Lemma append_assoc_str (a b c : string) : (a ++ b ++ c) = ((a ++ b) ++ c).
Proof. induction a as [|x a IH]; simpl; [reflexivity|]. rewrite IH. reflexivity. Qed.

Lemma length_append_str (a b : string) : String.length (a ++ b) = (String.length a + String.length b)%nat.
Proof. induction a as [|x a IH]; simpl; [reflexivity|]. rewrite IH. reflexivity. Qed.

Lemma len_nonneg s : 0 <= len s.
Proof. unfold len. lia. Qed.

Lemma substring_prefix s : forall n, exists r, s = substring 0 n s ++ r /\
  (String.length (substring 0 n s) <= n)%nat /\ (String.length (substring 0 n s) <= String.length s)%nat.
Proof.
  induction s as [|c s IH]; intros n.
  - exists "". destruct n; simpl; split; [reflexivity|lia|reflexivity|lia].
  - destruct n as [|n]; simpl.
    + exists (String c s). simpl. split; [reflexivity|lia].
    + destruct (IH n) as [r [Hr [H1 H2]]]. exists r. simpl. split; [rewrite <- Hr; reflexivity|lia].
Qed.

Lemma slice_to_prefix s k : exists r, s = slice_to s k ++ r /\ len (slice_to s k) <= len s.
Proof.
  unfold slice_to. destruct (0 <=? k).
  - destruct (substring_prefix s (Z.to_nat k)) as [r [H1 [_ H2]]]. exists r. split; [exact H1|unfold len in *; lia].
  - destruct (substring_prefix s (Z.to_nat (len s + k))) as [r [H1 [_ H2]]]. exists r. split; [exact H1|unfold len in *; lia].
Qed.

Lemma slice_to_len s k : 0 <= k -> len (slice_to s k) <= k.
Proof.
  intros Hk. unfold slice_to. apply Z.leb_le in Hk. rewrite Hk. apply Z.leb_le in Hk.
  destruct (substring_prefix s (Z.to_nat k)) as [r [_ [H1 _]]]. unfold len. lia.
Qed.

Lemma prefix_trans (a b c ra rb : string) : b = a ++ ra -> c = b ++ rb -> c = a ++ (ra ++ rb).
Proof. intros -> ->. apply eq_sym, append_assoc_str. Qed.

Lemma target_chars_nonneg b ic : 0 <= b -> 0 <= target_chars b ic.
Proof. intros Hb. unfold target_chars. destruct ic; [lia|]. apply Z.quot_pos; lia. Qed.

(** Property X1: estimate_tokens is 0 exactly on the empty text, in both prose
    and code mode, and is never negative; the code-mode estimate is never
    smaller than the prose estimate. *)
Theorem estimate_tokens_bounds text :
  (estimate_tokens text false = 0 <-> text = "") /\ (estimate_tokens text true = 0 <-> text = "") /\
  0 <= estimate_tokens text false <= estimate_tokens text true.
Proof.
  unfold estimate_tokens. destruct (String.eqb text "") eqn:E.
  - apply String.eqb_eq in E. subst. split; [tauto|split; [tauto|lia]].
  - apply String.eqb_neq in E. pose proof (len_nonneg text) as HL.
    assert (Hq : 2 * len text / 7 <= len text / 3).
    { apply Z.div_le_lower_bound; [lia|].
      pose proof (Z.mul_div_le (2 * len text) 7 ltac:(lia)). lia. }
    split; [split; [lia|congruence]|]. split; [split; [lia|congruence]|]. lia.
Qed.

(** Property X2: Appending text never lowers the token estimate:
    estimate_tokens(a) <= estimate_tokens(a + b) in either mode. *)
Theorem estimate_tokens_append_mono a b ic :
  estimate_tokens a ic <= estimate_tokens (a ++ b) ic.
Proof.
  unfold estimate_tokens. pose proof (len_nonneg a). pose proof (len_nonneg b).
  assert (Hl : len (a ++ b) = len a + len b) by (unfold len; rewrite length_append_str; lia).
  destruct (String.eqb a "") eqn:Ea; [destruct (String.eqb (a ++ b) ""); destruct ic; lia|].
  destruct (String.eqb (a ++ b) "") eqn:Eab.
  - apply String.eqb_eq in Eab. destruct a; [discriminate|discriminate].
  - rewrite Hl. destruct ic.
    + assert (len a / 3 <= (len a + len b) / 3) by (apply Z.div_le_mono; lia). lia.
    + assert (2 * len a / 7 <= 2 * (len a + len b) / 7) by (apply Z.div_le_mono; lia). lia.
Qed.

(** Property X3: truncate_to_budget returns the text unchanged whenever its
    estimate is within the budget, for every is_code and preserve_priority. *)
Theorem truncate_to_budget_within text budget ic pp :
  estimate_tokens text ic <= budget -> truncate_to_budget text budget ic pp = text.
Proof.
  intros H. unfold truncate_to_budget. destruct (String.eqb text "") eqn:E.
  - apply String.eqb_eq in E. symmetry. exact E.
  - apply Z.leb_le in H. rewrite H. reflexivity.
Qed.

Lemma truncate_to_budget_within_witness :
  estimate_tokens "# a" false <= 1 /\ truncate_to_budget "# a" 1 false true = "# a".
Proof. split; [vm_compute; discriminate|apply truncate_to_budget_within; vm_compute; discriminate]. Defined.

(** Property X4: For a non-negative budget, _simple_truncate returns the text
    unchanged when it has at most target_chars characters. Otherwise it
    returns a prefix of the text of at most target_chars characters followed
    by the truncation notice. *)
Theorem simple_truncate_prefix text budget ic : 0 <= budget ->
  (len text <= target_chars budget ic -> simple_truncate text budget ic = text) /\
  (target_chars budget ic < len text ->
   exists kept rest, text = kept ++ rest /\ len kept <= target_chars budget ic /\
     simple_truncate text budget ic =
       kept ++ NL ++ NL ++ "---" ++ NL ++ "[Content truncated - more available via zoom]").
Proof.
  intros Hb. pose proof (target_chars_nonneg budget ic Hb) as Ht. unfold simple_truncate. split.
  - intros H. apply Z.leb_le in H. rewrite H. reflexivity.
  - intros H. apply Z.leb_gt in H. rewrite H.
    set (tc := target_chars budget ic) in *. set (t0 := slice_to text tc).
    destruct (slice_to_prefix text tc) as [r0 [Hr0 _]]. fold t0 in Hr0.
    assert (Hl0 : len t0 <= tc) by (apply slice_to_len; exact Ht).
    assert (Hsub : forall k, exists r, text = slice_to t0 k ++ r /\ len (slice_to t0 k) <= tc).
    { intros k. destruct (slice_to_prefix t0 k) as [r1 [Hr1 Hl1]].
      exists (r1 ++ r0). split; [exact (prefix_trans _ _ _ _ _ Hr1 Hr0)|lia]. }
    destruct (7 * tc <? 10 * rfind t0 (NL ++ NL));
      [destruct (Hsub (rfind t0 (NL ++ NL))) as [r [Hr Hl]]; eauto|].
    destruct (8 * tc <? 10 * rfind t0 NL); [destruct (Hsub (rfind t0 NL)) as [r [Hr Hl]]; eauto|].
    destruct (9 * tc <? 10 * rfind t0 " "); [destruct (Hsub (rfind t0 " ")) as [r [Hr Hl]]; eauto|].
    eauto.
Qed.

Lemma simple_truncate_prefix_witness :
  0 <= 1 /\ (exists kept rest, "hello world" = kept ++ rest /\ len kept <= target_chars 1 false /\
     simple_truncate "hello world" 1 false =
       kept ++ NL ++ NL ++ "---" ++ NL ++ "[Content truncated - more available via zoom]").
Proof.
  split; [lia|]. apply (proj2 (simple_truncate_prefix "hello world" 1 false ltac:(lia))).
  vm_compute. reflexivity.
Defined.

(** Property X5: _truncate_section returns None when the budget does not exceed
    the header's estimate. A returned section keeps the header and priority,
    and its content is a non-blank prefix of the original content, at most
    target_chars(budget - header tokens) long, followed by the '[... more
    available via zoom]' notice. *)
Theorem truncate_section_shape s budget ic :
  (budget <= estimate_tokens (header s) ic -> truncate_section s budget ic = None) /\
  (forall p, truncate_section s budget ic = Some p ->
     header p = header s /\ priority p = priority s /\
     exists kept rest, content s = kept ++ rest /\
       len kept <= target_chars (budget - estimate_tokens (header s) ic) ic /\
       strip kept <> "" /\
       content p = kept ++ NL ++ NL ++ "[... more available via zoom]").
Proof.
  unfold truncate_section. split.
  - intros H. apply Z.leb_le in H. rewrite H. reflexivity.
  - intros p. destruct (budget <=? estimate_tokens (header s) ic) eqn:Eb; [discriminate|].
    apply Z.leb_gt in Eb.
    set (tc := target_chars (budget - estimate_tokens (header s) ic) ic).
    assert (Ht : 0 <= tc) by (apply target_chars_nonneg; lia).
    set (c0 := slice_to (content s) tc).
    destruct (slice_to_prefix (content s) tc) as [r0 [Hr0 _]]. fold c0 in Hr0.
    assert (Hl0 : len c0 <= tc) by (apply slice_to_len; exact Ht).
    assert (Hsub : forall k, exists r, content s = slice_to c0 k ++ r /\ len (slice_to c0 k) <= tc).
    { intros k. destruct (slice_to_prefix c0 k) as [r1 [Hr1 Hl1]].
      exists (r1 ++ r0). split; [exact (prefix_trans _ _ _ _ _ Hr1 Hr0)|lia]. }
    assert (Hc1 : exists c1 r, content s = c1 ++ r /\ len c1 <= tc /\
      (if 6 * len c0 <? 10 * rfind c0 (NL ++ NL) then slice_to c0 (rfind c0 (NL ++ NL))
       else if 8 * len c0 <? 10 * rfind c0 NL then slice_to c0 (rfind c0 NL) else c0) = c1).
    { destruct (6 * len c0 <? 10 * rfind c0 (NL ++ NL));
        [destruct (Hsub (rfind c0 (NL ++ NL))) as [r [Hr Hl]]; eauto|].
      destruct (8 * len c0 <? 10 * rfind c0 NL); [destruct (Hsub (rfind c0 NL)) as [r [Hr Hl]]; eauto|].
      eauto. }
    destruct Hc1 as [c1 [r [Hr [Hl Hc1]]]]. rewrite Hc1.
    destruct (negb (String.eqb (strip c1) "")) eqn:Es; [|discriminate].
    intros H. injection H as <-. simpl. split; [reflexivity|split; [reflexivity|]].
    exists c1, r. apply negb_true_iff, String.eqb_neq in Es. auto.
Qed.

(** Property X6: The section-keeping loop of truncate_to_budget keeps a prefix
    of the sections whose summed token counts, added to the tokens already
    used, stay within max(used, budget). It adds at most one more, partial
    section: the truncation of the next section to the remaining budget, and
    only when more than 50 tokens remain. *)
Theorem keep_sections_shape secs budget used ic :
  exists (kept extra rest : list Section),
    keep_sections secs budget used ic = (kept ++ extra)%list /\ secs = (kept ++ rest)%list /\
    used + sum_tokens kept ic <= Z.max used budget /\
    (extra = [] \/
     exists s rest' p, rest = s :: rest' /\ extra = [p] /\
       50 < budget - (used + sum_tokens kept ic) /\
       truncate_section s (budget - (used + sum_tokens kept ic)) ic = Some p).
Proof.
  revert used. induction secs as [|s r IH]; intros used.
  - exists [], [], []. simpl. split; [reflexivity|split; [reflexivity|split; [lia|left; reflexivity]]].
  - simpl. destruct (used + token_count s ic <=? budget) eqn:E.
    + apply Z.leb_le in E. destruct (IH (used + token_count s ic)) as [k [x [rs [H1 [H2 [H3 H4]]]]]].
      exists (s :: k), x, rs. rewrite H1, H2. simpl.
      split; [reflexivity|split; [reflexivity|]].
      split; [lia|]. destruct H4 as [H4|[s' [r' [p [Ha [Hb [Hc Hd]]]]]]]; [left; exact H4|right].
      exists s', r', p. rewrite Z.add_assoc. auto.
    + apply Z.leb_gt in E. cbv zeta. destruct (50 <? budget - used) eqn:E5;
        [destruct (truncate_section s (budget - used) ic) as [p|] eqn:Et|].
      * exists [], [p], (s :: r). simpl. rewrite Z.add_0_r.
        split; [reflexivity|split; [reflexivity|split; [lia|]]].
        right. exists s, r, p. apply Z.ltb_lt in E5. auto.
      * exists [], [], (s :: r). simpl. split; [reflexivity|split; [reflexivity|split; [lia|auto]]].
      * exists [], [], (s :: r). simpl. split; [reflexivity|split; [reflexivity|split; [lia|auto]]].
Qed.

End ExTokens.

Module ExDb.
Import PyStr Db DbMore Graph Indexer Inputs ExtraDefs.
Local Open Scope Z_scope.

Lemma find_none_iff {A} (f : A -> bool) l : List.find f l = None <-> forall x, In x l -> f x = false.
Proof.
  induction l as [|a l IH]; simpl; [split; [intros _ _ []|reflexivity]|].
  destruct (f a) eqn:E; split.
  - discriminate.
  - intros H. rewrite H in E by (left; reflexivity). discriminate.
  - intros H x [<-|Hx]; [exact E|apply IH; assumption].
  - intros H. apply IH. intros x Hx. apply H. right. exact Hx.
Qed.

Lemma filter_nil_iff {A} (f : A -> bool) l : filter f l = [] <-> forall x, In x l -> f x = false.
Proof.
  induction l as [|a l IH]; simpl; [split; [intros _ _ []|reflexivity]|].
  destruct (f a) eqn:E; split.
  - discriminate.
  - intros H. rewrite H in E by (left; reflexivity). discriminate.
  - intros H x [<-|Hx]; [exact E|apply IH; assumption].
  - intros H. apply IH. intros x Hx. apply H. right. exact Hx.
Qed.

Lemma memZ_in x l : memZ x l = true <-> In x l.
Proof.
  unfold memZ. rewrite existsb_exists. split.
  - intros [y [Hy E]]. apply Z.eqb_eq in E. subst. exact Hy.
  - intros H. exists x. split; [exact H|apply Z.eqb_refl].
Qed.

Lemma dead_symbols_iter_incl n syms : forall dead x, In x dead -> In x (dead_symbols_iter n syms dead).
Proof.
  induction n as [|n IH]; intros dead x H; simpl; [exact H|].
  destruct (map s_id _); [exact H|]. apply IH. apply in_or_app. left. exact H.
Qed.

(** Property X7: add_file stores a row with the given fields under the path and
    leaves every other path's row unchanged. When the path already has a
    row, it reuses that row's id and the row count stays the same. Otherwise
    the id is the next files id and one row is added. *)
Theorem add_file_upsert path mtime size h lang now st :
  let '(id, st') := add_file path mtime size h lang now st in
  get_file path st' = Some (mkFileRow id path mtime size h now lang) /\
  (forall q, q <> path -> get_file q st' = get_file q st) /\
  match get_file path st with
  | Some f => id = f_id f /\ List.length (files st') = List.length (files st)
  | None => id = seq_files st + 1 /\ List.length (files st') = S (List.length (files st))
  end.
Proof.
  pose proof (fun q => Proofs.add_file_get_other q path mtime size h lang now st) as Hother.
  destruct (add_file path mtime size h lang now st) as [id st'] eqn:E.
  cbn [snd] in Hother.
  split; [|split; [exact Hother|]].
  - unfold add_file in E. destruct (get_file path st) as [f|] eqn:Eg.
    + injection E as <- <-. unfold get_file, with_files in *; simpl. rewrite Proofs.find_map.
      rewrite (Proofs.find_ext _ (fun g => String.eqb (f_path g) path)).
      * rewrite Eg. simpl. apply find_some in Eg as [_ Eg]. rewrite Eg. reflexivity.
      * intros x. destruct (String.eqb (f_path x) path) eqn:Ex; simpl; [apply String.eqb_refl|exact Ex].
    + injection E as <- <-. unfold get_file in *; simpl. rewrite Proofs.find_app, Eg. simpl.
      rewrite String.eqb_refl. reflexivity.
  - unfold add_file in E. destruct (get_file path st) as [f|] eqn:Eg.
    + injection E as <- <-. simpl. rewrite length_map. auto.
    + injection E as <- <-. simpl. rewrite length_app. simpl. split; [reflexivity|lia].
Qed.

(** Property X8: delete_file reports whether the path had a row and removes it.
    The ON DELETE CASCADE foreign keys then remove every symbol of that
    file, and every edge that belongs to the file or touches one of its
    symbols. *)
Theorem delete_file_cascade p st :
  let '(found, st') := delete_file p st in
  found = match get_file p st with Some _ => true | None => false end /\
  get_file p st' = None /\
  (forall f, In f (files st) -> f_path f = p ->
     (forall s, In s (symbols st') -> s_file_id s <> f_id f) /\
     (forall e, In e (edges st') -> e_file_id e <> f_id f /\
        forall s, In s (symbols st) -> s_file_id s = f_id f ->
          e_source_id e <> s_id s /\ e_target_id e <> s_id s)).
Proof.
  destruct (delete_file p st) as [found st'] eqn:E.
  pose proof (fun r => Proofs.delete_file_rows r p st) as Hrows. rewrite E in Hrows. cbn [snd] in Hrows.
  unfold delete_file in E. injection E as Hfound Hst.
  set (dead := map f_id (filter (fun f => String.eqb (f_path f) p) (files st))) in *.
  assert (Hdead : forall f, In f (files st) -> f_path f = p -> In (f_id f) dead).
  { intros f Hf Hp. apply in_map. apply filter_In. split; [exact Hf|apply String.eqb_eq; exact Hp]. }
  split; [|split].
  - subst found. unfold get_file. destruct (List.find _ (files st)) eqn:Ef.
    + apply find_some in Ef as [Hin Hp]. apply String.eqb_eq in Hp.
      pose proof (Hdead f Hin Hp) as H. destruct dead; [destruct H|reflexivity].
    + rewrite find_none_iff in Ef. unfold dead.
      replace (filter (fun f => String.eqb (f_path f) p) (files st)) with (@nil FileRow)
        by (symmetry; apply filter_nil_iff; exact Ef). reflexivity.
  - unfold get_file. apply find_none_iff. intros x Hx. apply String.eqb_neq. apply Hrows. exact Hx.
  - intros f Hf Hp. pose proof (Hdead f Hf Hp) as Hd. subst st'. unfold cascade. cbn [symbols edges].
    set (dead_syms := dead_symbols_iter _ _ _).
    assert (Hds : forall s, In s (symbols st) -> s_file_id s = f_id f -> In (s_id s) dead_syms).
    { intros s Hs Hsf. apply dead_symbols_iter_incl. apply in_or_app. right. apply in_map.
      apply filter_In. split; [exact Hs|]. apply memZ_in. rewrite Hsf. exact Hd. }
    split.
    + intros s Hs Heq. apply filter_In in Hs as [Hs Hm]. apply negb_true_iff in Hm.
      rewrite (proj2 (memZ_in _ _) (Hds s Hs Heq)) in Hm. discriminate.
    + intros e He. apply filter_In in He as [He Hm]. apply negb_true_iff in Hm.
      assert (Hnot : ~ (memZ (e_file_id e) dead || memZ (e_source_id e) dead_syms
                        || memZ (e_target_id e) dead_syms = true)).
      { intros Hx. rewrite (proj2 (memZ_in _ _)) in Hm; [discriminate|].
        apply in_map. apply filter_In. split; [exact He|exact Hx]. }
      split.
      * intros Heq. apply Hnot. rewrite Heq. rewrite (proj2 (memZ_in _ _) Hd). reflexivity.
      * intros s Hs Hsf. split; intros Heq; apply Hnot; rewrite Heq;
          rewrite (proj2 (memZ_in _ _) (Hds s Hs Hsf)); rewrite ?orb_true_r; reflexivity.
Qed.

(** Property X9: delete_symbols_in_file returns the number of symbols the file
    had, leaves the file with no symbols and the files table unchanged, and
    the cascade leaves no edge touching a removed symbol. *)
Theorem delete_symbols_in_file_spec fid st :
  let '(n, st') := delete_symbols_in_file fid st in
  n = Z.of_nat (List.length (get_symbols_in_file fid st)) /\
  get_symbols_in_file fid st' = [] /\ files st' = files st /\
  (forall e, In e (edges st') -> forall s, In s (get_symbols_in_file fid st) ->
     e_source_id e <> s_id s /\ e_target_id e <> s_id s).
Proof.
  pose proof (Proofs.delete_symbols_files fid st) as Hf.
  destruct (delete_symbols_in_file fid st) as [n st'] eqn:E. cbn [snd] in Hf.
  unfold delete_symbols_in_file in E. injection E as Hn Hst.
  split; [rewrite <- Hn, length_map; reflexivity|]. split; [|split; [exact Hf|]].
  all: subst st'; unfold cascade; cbn [symbols edges].
  all: set (dead_syms := dead_symbols_iter _ _ _).
  all: assert (Hds : forall s, In s (get_symbols_in_file fid st) -> In (s_id s) dead_syms)
         by (intros s Hs; apply dead_symbols_iter_incl; apply in_or_app; left; apply in_map; exact Hs).
  - unfold get_symbols_in_file at 1. cbn [symbols]. apply filter_nil_iff. intros s Hs.
    apply filter_In in Hs as [Hs Hm]. destruct (s_file_id s =? fid) eqn:Ef; [|reflexivity].
    apply negb_true_iff in Hm. rewrite (proj2 (memZ_in _ _)) in Hm; [discriminate|].
    apply Hds. apply filter_In. split; assumption.
  - intros e He s Hs. apply filter_In in He as [He Hm]. apply negb_true_iff in Hm.
    pose proof (proj2 (memZ_in _ _) (Hds s Hs)) as Hd.
    split; intros Heq; rewrite (proj2 (memZ_in _ _)) in Hm; try discriminate;
      apply in_map; apply filter_In; split; try exact He; rewrite Heq, Hd, ?orb_true_r; reflexivity.
Qed.

Lemma nodup_map_inj {A B} (f : A -> B) l a b :
  NoDup (map f l) -> In a l -> In b l -> f a = f b -> a = b.
Proof.
  induction l as [|x l IH]; simpl; [intros _ []|]. intros Hnd Ha Hb Hf.
  apply NoDup_cons_iff in Hnd as [Hx Hnd].
  destruct Ha as [<-|Ha], Hb as [<-|Hb]; auto.
  - exfalso. apply Hx. rewrite Hf. apply in_map. exact Hb.
  - exfalso. apply Hx. rewrite <- Hf. apply in_map. exact Ha.
Qed.

(** Property X10: When edge ids are distinct, delete_edges_in_file returns the
    number of edges of the file and removes exactly those edges. Files and
    symbols are unchanged, and a callsite is kept exactly when no removed
    edge has its edge id. *)
Theorem delete_edges_in_file_spec fid st :
  NoDup (map e_id (edges st)) ->
  let '(n, st') := delete_edges_in_file fid st in
  n = Z.of_nat (List.length (filter (fun e => e_file_id e =? fid) (edges st))) /\
  edges st' = filter (fun e => negb (e_file_id e =? fid)) (edges st) /\
  files st' = files st /\ symbols st' = symbols st /\
  (forall c, In c (callsites st') <->
     In c (callsites st) /\ forall e, In e (edges st) -> e_id e = c_edge_id c -> e_file_id e <> fid).
Proof.
  intros Hnd. unfold delete_edges_in_file.
  set (dead := map e_id (filter (fun e => e_file_id e =? fid) (edges st))).
  assert (Hdead : forall e, In e (edges st) -> memZ (e_id e) dead = (e_file_id e =? fid)).
  { intros e He. destruct (e_file_id e =? fid) eqn:Ef.
    - apply memZ_in. apply in_map. apply filter_In. auto.
    - destruct (memZ (e_id e) dead) eqn:Em; [|reflexivity].
      apply memZ_in, in_map_iff in Em as [e' [Hid He']]. apply filter_In in He' as [He' Hf'].
      rewrite (nodup_map_inj e_id (edges st) e' e Hnd He' He Hid) in Hf'. congruence. }
  split; [unfold dead; rewrite length_map; reflexivity|]. cbn [edges files symbols callsites].
  split; [|split; [reflexivity|split; [reflexivity|]]].
  - apply filter_ext_in. intros e He. rewrite Hdead by exact He. reflexivity.
  - intros c. rewrite filter_In. split.
    + intros [Hc Hm]. split; [exact Hc|]. intros e He Hid Hf. apply negb_true_iff in Hm.
      rewrite (proj2 (memZ_in _ _)) in Hm; [discriminate|]. rewrite <- Hid. apply in_map.
      apply filter_In. split; [exact He|apply Z.eqb_eq; exact Hf].
    + intros [Hc H]. split; [exact Hc|]. apply negb_true_iff.
      destruct (memZ (c_edge_id c) dead) eqn:Em; [|reflexivity].
      apply memZ_in, in_map_iff in Em as [e [Hid He]]. apply filter_In in He as [He Hf].
      apply Z.eqb_eq in Hf. exfalso. exact (H e He Hid Hf).
Qed.

Lemma delete_edges_in_file_spec_witness :
  NoDup (map e_id (edges one_edge_store)) /\
  let '(n, st') := delete_edges_in_file 1 one_edge_store in
  n = Z.of_nat (List.length (filter (fun e => e_file_id e =? 1) (edges one_edge_store))) /\
  edges st' = filter (fun e => negb (e_file_id e =? 1)) (edges one_edge_store) /\
  files st' = files one_edge_store /\ symbols st' = symbols one_edge_store /\
  (forall c, In c (callsites st') <->
     In c (callsites one_edge_store) /\
     forall e, In e (edges one_edge_store) -> e_id e = c_edge_id c -> e_file_id e <> 1).
Proof.
  assert (H : NoDup (map e_id (edges one_edge_store))) by (simpl; constructor; [simpl; tauto|constructor]).
  split; [exact H|]. exact (delete_edges_in_file_spec 1 one_edge_store H).
Defined.


(** Property X12: update_index_stats sets the meta keys last_indexed,
    indexed_files and indexed_symbols to the given values. Every other meta
    key and all data tables are unchanged. *)
Theorem update_index_stats_meta fc sc now st :
  let st' := update_index_stats fc sc now st in
  get_meta "last_indexed" st' = Some (z_str now) /\
  get_meta "indexed_files" st' = Some (z_str fc) /\
  get_meta "indexed_symbols" st' = Some (z_str sc) /\
  (forall k, k <> "last_indexed" -> k <> "indexed_files" -> k <> "indexed_symbols" ->
     get_meta k st' = get_meta k st) /\
  files st' = files st /\ symbols st' = symbols st /\ edges st' = edges st /\ callsites st' = callsites st.
Proof.
  unfold get_meta, update_index_stats. cbv zeta.
  split; [rewrite !Proofs.set_meta_other by discriminate; apply Proofs.set_meta_same|].
  split; [rewrite Proofs.set_meta_other by discriminate; rewrite Proofs.set_meta_same; reflexivity|].
  split; [apply Proofs.set_meta_same|].
  split; [intros k H1 H2 H3; rewrite !Proofs.set_meta_other by assumption; reflexivity|].
  repeat split.
Qed.

(** Property X13: After a successful connect, connecting again succeeds and
    changes nothing. connect never changes the files, symbols, edges or
    callsites tables. On a store without a schema version it records version
    '1' and created_at. *)
Theorem connect_idempotent now now' st u st' :
  connect now st = Ok u st' ->
  connect now' st' = Ok tt st' /\
  files st' = files st /\ symbols st' = symbols st /\ edges st' = edges st /\ callsites st' = callsites st /\
  (get_meta "schema_version" st = None ->
     get_meta "schema_version" st' = Some "1" /\ get_meta "created_at" st' = Some (z_str now)).
Proof.
  intros H. destruct (Proofs.connect_version _ _ _ _ H) as [v [Hv Hpv]].
  split; [exact (Proofs.connect_current now' st' v Hv Hpv)|].
  unfold get_meta. unfold connect, init_schema, get_schema_version in H.
  destruct (meta_lookup "schema_version" (meta st)) as [s|] eqn:El.
  - destruct (py_int s) as [n|]; [|discriminate].
    split; [|split; [|split; [|split; [|discriminate]]]];
    (destruct (n =? 0); [|destruct (negb (n =? SCHEMA_VERSION))]); injection H as _ <-; reflexivity.
  - injection H as _ <-. repeat split; try reflexivity.
    + rewrite Proofs.set_meta_other by discriminate. rewrite Proofs.set_meta_same. reflexivity.
    + rewrite Proofs.set_meta_same. reflexivity.
Qed.

Lemma connect_idempotent_witness :
  exists st', connect 5 empty_store = Ok tt st' /\
  connect 6 st' = Ok tt st' /\
  files st' = files empty_store /\ symbols st' = symbols empty_store /\ edges st' = edges empty_store /\
  callsites st' = callsites empty_store /\
  (get_meta "schema_version" empty_store = None ->
     get_meta "schema_version" st' = Some "1" /\ get_meta "created_at" st' = Some (z_str 5)).
Proof.
  eexists. split; [reflexivity|]. apply (connect_idempotent 5 6 empty_store tt). reflexivity.
Defined.

End ExDb.

Module ExGraph.
Import PyStr Db Graph Inputs ExtraDefs.
Local Open Scope Z_scope.





Lemma traverse_nonpositive ne oe st t d m : d <= 0 -> traverse ne oe st t d m = Done [].
Proof.
  intros Hd. unfold traverse.
  destruct (match t with TId id => Some id | TName n => resolve_symbol n st end) as [sid|]; [|reflexivity].
  cbn [bfs]. replace (d <=? 0) with true by (symmetry; apply Z.leb_le; exact Hd).
  destruct (List.length (edges st)); reflexivity.
Qed.

(** Property X15: callers and callees return an empty result for every depth <=
    0. *)
Theorem callers_callees_nonpositive_depth st t d m : d <= 0 ->
  Graph.callers st t d m = Done [] /\ Graph.callees st t d m = Done [].
Proof. intros Hd. split; apply traverse_nonpositive; exact Hd. Qed.

Lemma callers_callees_nonpositive_depth_witness :
  0 <= 0 /\ Graph.callers cycle_store (TName "a") 0 0 = Done [] /\ Graph.callees cycle_store (TName "a") 0 0 = Done [].
Proof. split; [lia|]. apply callers_callees_nonpositive_depth. lia. Defined.

Section ResultsFacts.
Variable next_edges : Z -> Store -> list (EdgeRow * SymbolRow).
Variable other_end : EdgeRow -> Z.
Variable st : Store.
Variable start : Z.
Variable depth : Z.
Variable min_conf : Q.



End ResultsFacts.


Lemma cache_get_app k c k' v :
  Engine.cache_get k (c ++ [(k', v)])%list =
  match Engine.cache_get k c with Some w => Some w | None => if k =? k' then Some v else None end.
Proof.
  induction c as [|[k0 v0] r IH]; cbn [app Engine.cache_get]; [reflexivity|].
  destruct (k =? k0); [reflexivity|exact IH].
Qed.

Lemma cache_ok_nil st : cache_ok st [].
Proof. intros k v H. discriminate. Qed.

Lemma get_symbol_cached_ok sid st c :
  cache_ok st c ->
  fst (Engine.get_symbol_cached sid st c) = get_symbol sid st /\
  cache_ok st (snd (Engine.get_symbol_cached sid st c)).
Proof.
  intros Hc. unfold Engine.get_symbol_cached.
  destruct (Engine.cache_get sid c) as [v|] eqn:E.
  - split; [exact (Hc _ _ E)|exact Hc].
  - split; [reflexivity|]. intros k w Hk. cbn [snd] in Hk. rewrite cache_get_app in Hk.
    destruct (Engine.cache_get k c) as [w'|] eqn:Ek.
    + injection Hk as <-. exact (Hc _ _ Ek).
    + destruct (k =? sid) eqn:Eq; [|discriminate]. apply Z.eqb_eq in Eq. subst k.
      injection Hk as <-. reflexivity.
Qed.

Lemma scan_edges_c_ok other_end st start min_conf es : forall cd cc res added c,
  cache_ok st c ->
  fst (Engine.scan_edges_c other_end st start min_conf es cd cc res added c) =
    Graph.scan_edges other_end st start min_conf es cd cc res added /\
  cache_ok st (snd (Engine.scan_edges_c other_end st start min_conf es cd cc res added c)).
Proof.
  induction es as [|[e s] r IH]; intros cd cc res added c Hc; cbn [Engine.scan_edges_c Graph.scan_edges].
  - split; [reflexivity|exact Hc].
  - destruct (other_end e =? start); [apply IH; exact Hc|].
    destruct (in_results (other_end e) res); [apply IH; exact Hc|].
    destruct (extract_confidence e) as [q|]; [|split; [reflexivity|exact Hc]].
    destruct (Qlt_bool (cc * q) min_conf); [apply IH; exact Hc|].
    destruct (get_symbol_cached_ok (other_end e) st c Hc) as [H1 H2].
    destruct (Engine.get_symbol_cached (other_end e) st c) as [sym c'].
    cbn [fst snd] in H1, H2. subst sym.
    destruct (get_symbol (other_end e) st) as [[sy path]|]; apply IH; exact H2.
Qed.

Lemma bfs_c_ok next_edges other_end st start depth min_conf fuel : forall queue res c,
  cache_ok st c ->
  fst (Engine.bfs_c next_edges other_end st start depth min_conf fuel queue res c) =
    Graph.bfs next_edges other_end st start depth min_conf fuel queue res /\
  cache_ok st (snd (Engine.bfs_c next_edges other_end st start depth min_conf fuel queue res c)).
Proof.
  induction fuel as [|f IH]; intros queue res c Hc;
    (destruct queue as [|[[cid cd] cc] q]; cbn [Engine.bfs_c Graph.bfs]; [split; [reflexivity|exact Hc]|]).
  - split; [reflexivity|exact Hc].
  - destruct (depth <=? cd); [apply IH; exact Hc|].
    destruct (scan_edges_c_ok other_end st start min_conf (next_edges cid st) cd cc res [] c Hc) as [H1 H2].
    destruct (Engine.scan_edges_c other_end st start min_conf (next_edges cid st) cd cc res [] c)
      as [o c'].
    cbn [fst snd] in H1, H2. subst o.
    destruct (Graph.scan_edges other_end st start min_conf (next_edges cid st) cd cc res [])
      as [[res' added]|]; [apply IH; exact H2|split; [reflexivity|exact H2]].
Qed.

Lemma traverse_c_ok ne oe st t d m c :
  cache_ok st c ->
  fst (Engine.traverse_c ne oe st t d m c) = traverse ne oe st t d m /\
  cache_ok st (snd (Engine.traverse_c ne oe st t d m c)).
Proof.
  intros Hc. unfold Engine.traverse_c, traverse.
  destruct (match t with TId id => Some id | TName n => resolve_symbol n st end) as [sid|];
    [|split; [reflexivity|exact Hc]].
  destruct (bfs_c_ok ne oe st sid d m (S (List.length (edges st))) [(sid, 0, 1%Q)] [] c Hc) as [H1 H2].
  destruct (Engine.bfs_c ne oe st sid d m (S (List.length (edges st))) [(sid, 0, 1%Q)] [] c) as [o c'].
  cbn [fst snd] in H1, H2 |- *. subst o. split; [|exact H2].
  destruct (bfs ne oe st sid d m (S (List.length (edges st))) [(sid, 0, 1%Q)] []); reflexivity.
Qed.

(** Property X26: A [GraphEngine] whose symbol cache agrees with the store
    answers callers and callees as a fresh engine does, and its cache still
    agrees with the store afterwards; in particular a fresh engine (empty
    cache) stays consistent over any sequence of queries on an unchanged
    store. *)
Theorem engine_cache_refines st c t d m :
  cache_ok st c ->
  fst (Engine.callers c st t d m) = Graph.callers st t d m /\
  cache_ok st (snd (Engine.callers c st t d m)) /\
  fst (Engine.callees c st t d m) = Graph.callees st t d m /\
  cache_ok st (snd (Engine.callees c st t d m)).
Proof.
  intros Hc. unfold Engine.callers, Engine.callees, Graph.callers, Graph.callees.
  destruct (traverse_c_ok get_incoming_edges e_source_id st t d m c Hc) as [H1 H2].
  destruct (traverse_c_ok get_outgoing_edges e_target_id st t d m c Hc) as [H3 H4].
  auto.
Qed.

Lemma engine_cache_refines_witness :
  cache_ok cycle_store [] /\
  fst (Engine.callers [] cycle_store (TName "a") 3 0) = Graph.callers cycle_store (TName "a") 3 0 /\
  cache_ok cycle_store (snd (Engine.callers [] cycle_store (TName "a") 3 0)) /\
  fst (Engine.callees [] cycle_store (TName "a") 3 0) = Graph.callees cycle_store (TName "a") 3 0 /\
  cache_ok cycle_store (snd (Engine.callees [] cycle_store (TName "a") 3 0)).
Proof.
  split; [intros k v H; discriminate|].
  apply engine_cache_refines. intros k v H. discriminate.
Defined.



(** Property X27: The symbol cache of a GraphEngine is never invalidated: an
    engine that answered callers of [a] on the cycle store, queried again
    after [b] is renamed [bb] in the store, still reports the name [b],
    where a fresh engine reports [bb]. *)
Theorem engine_stale_cache :
  fst (Engine.callers (snd (Engine.callers [] cycle_store (TId 1) 1 0)) renamed_store (TId 1) 1 0) =
    Done [mkNode 2 "b" "function" "c.py" 2 (9 # 10) 1] /\
  Graph.callers renamed_store (TId 1) 1 0 = Done [mkNode 2 "bb" "function" "c.py" 2 (9 # 10) 1].
Proof. split; vm_compute; reflexivity. Qed.

End ExGraph.

Module ExParser.
Import PyStr Parser Inputs ExtraDefs.
Local Open Scope Z_scope.

Lemma ident_chars_words l : ident_chars l = true -> forall x, In x l -> is_word x = true.
Proof.
  destruct l as [|c r]; simpl; [discriminate|]. intros H x [<-|Hx].
  - apply andb_true_iff in H as [H _]. unfold is_word. rewrite H. reflexivity.
  - apply andb_true_iff in H as [_ H]. rewrite forallb_forall in H. auto.
Qed.

Lemma dot_not_identifier s : contains_dot s = true -> simple_identifier s = false.
Proof.
  unfold contains_dot, simple_identifier. intros H. apply existsb_exists in H as [d [Hd Ed]].
  apply Ascii.eqb_eq in Ed. subst d.
  assert (Hw : forall l, In "."%char l -> ident_chars l = false).
  { intros l Hl. destruct (ident_chars l) eqn:E; [|reflexivity].
    pose proof (ident_chars_words l E _ Hl) as Hx. discriminate. }
  rewrite (Hw _ Hd). simpl.
  destruct (rev (list_ascii_of_string s)) as [|c r] eqn:Er; [reflexivity|].
  destruct (Ascii.eqb c (ascii_of_nat 10)) eqn:Ec; [|reflexivity]. simpl.
  apply Hw. apply Ascii.eqb_eq in Ec. subst c.
  assert (Hin : In "."%char (rev (list_ascii_of_string s))) by (apply -> in_rev; exact Hd).
  rewrite Er in Hin. destruct Hin as [Hc|Hin]; [discriminate|]. apply -> in_rev. exact Hin.
Qed.

(** Property X17: _calculate_call_confidence gives 0.7 for a callee text
    containing '.', 0.6 for a plain identifier, and 0.5 otherwise. *)
Theorem calculate_call_confidence_values t :
  (contains_dot t = true -> calculate_call_confidence t == 7 # 10)%Q /\
  (contains_dot t = false -> simple_identifier t = true -> calculate_call_confidence t == 6 # 10)%Q /\
  (contains_dot t = false -> simple_identifier t = false -> calculate_call_confidence t == 1 # 2)%Q.
Proof.
  unfold calculate_call_confidence. split; [|split]; intros H1; [|intros H2..].
  - rewrite H1, (dot_not_identifier _ H1). vm_compute. reflexivity.
  - rewrite H1, H2. vm_compute. reflexivity.
  - rewrite H1, H2. vm_compute. reflexivity.
Qed.

Lemma encloses_bool line s :
  ((sy_line_start s <=? line) && match sy_line_end s with None => true | Some e => line <=? e end) = true
  <-> encloses line s.
Proof.
  unfold encloses. rewrite andb_true_iff, Z.leb_le.
  destruct (sy_line_end s); [rewrite Z.leb_le|]; tauto.
Qed.

Lemma fcs_fold line syms : forall seen best, fcs_inv line best seen ->
  fcs_inv line (fold_left (fcs_step line) syms best) (seen ++ syms).
Proof.
  induction syms as [|s r IH]; intros seen best H; simpl; [rewrite app_nil_r; exact H|].
  replace (seen ++ s :: r)%list with ((seen ++ [s]) ++ r)%list by (rewrite <- app_assoc; reflexivity).
  apply IH. unfold fcs_step.
  destruct (_ && _) eqn:Ec.
  - apply encloses_bool in Ec. destruct best as [b|].
    + destruct H as [Hb [Heb Hmax]]. destruct (sy_line_start b <? sy_line_start s) eqn:Elt.
      * apply Z.ltb_lt in Elt. split; [apply in_or_app; right; left; reflexivity|split; [exact Ec|]].
        intros x Hx Hex. apply in_app_or in Hx as [Hx|[<-|[]]]; [|lia]. specialize (Hmax x Hx Hex). lia.
      * apply Z.ltb_ge in Elt. split; [apply in_or_app; left; exact Hb|split; [exact Heb|]].
        intros x Hx Hex. apply in_app_or in Hx as [Hx|[<-|[]]]; [auto|lia].
    + split; [apply in_or_app; right; left; reflexivity|split; [exact Ec|]].
      intros x Hx Hex. apply in_app_or in Hx as [Hx|[<-|[]]]; [|lia]. exfalso. exact (H x Hx Hex).
  - assert (Hn : ~ encloses line s) by (intros Hx; apply encloses_bool in Hx; congruence).
    destruct best as [b|].
    + destruct H as [Hb [Heb Hmax]]. split; [apply in_or_app; left; exact Hb|split; [exact Heb|]].
      intros x Hx Hex. apply in_app_or in Hx as [Hx|[<-|[]]]; [auto|contradiction].
    + intros x Hx. apply in_app_or in Hx as [Hx|[<-|[]]]; [auto|exact Hn].
Qed.

(** Property X18: _find_containing_symbol returns None exactly when no symbol's
    line range contains the line. Otherwise it returns the id of an
    enclosing symbol whose line_start is the largest among enclosing symbols
    (the innermost). *)
Theorem find_containing_symbol_spec line syms :
  match find_containing_symbol line syms with
  | None => forall s, In s syms -> ~ encloses line s
  | Some id => exists s, In s syms /\ symbol_id s = id /\ encloses line s /\
               forall s', In s' syms -> encloses line s' -> sy_line_start s' <= sy_line_start s
  end.
Proof.
  pose proof (fcs_fold line syms [] None (fun s (H : In s []) => match H with end)) as H.
  unfold find_containing_symbol. fold (fcs_step line).
  destruct (fold_left (fcs_step line) syms None) as [b|]; simpl in *.
  - exists b. tauto.
  - exact H.
Qed.

(** Property X19: The regex fallback parser emits no callsites for a non-Python
    language or blank content. Each callsite it emits has confidence 0.6 if
    the callee contains '.' and 0.3 otherwise, a line between 1 and the
    number of lines, and no column, scope or context. *)
Theorem regex_fallback_callsites_shape language content :
  ((language <> "python" \/ strip content = "") -> regex_fallback_callsites language content = []) /\
  forall cs, In cs (regex_fallback_callsites language content) ->
    cs_confidence cs = (if contains_dot (cs_callee_text cs) then 6 # 10 else 3 # 10)%Q /\
    1 <= cs_line cs <= Z.of_nat (List.length (split_char content (ascii_of_nat 10))) /\
    cs_column cs = None /\ cs_scope_symbol_id cs = None /\ cs_context cs = None.
Proof.
  unfold regex_fallback_callsites. split.
  - intros [H|H].
    + destruct (String.eqb (strip content) ""); [reflexivity|].
      replace (String.eqb language "python") with false by (symmetry; apply String.eqb_neq; exact H).
      reflexivity.
    + rewrite H. reflexivity.
  - intros cs H. destruct (String.eqb (strip content) ""); [destruct H|].
    destruct (String.eqb language "python"); [|destruct H].
    apply in_flat_map in H as [[i line] [Hil Hcs]].
    apply in_combine_l, in_seq in Hil.
    destruct (class_match line || func_match line); [destruct Hcs|].
    apply in_map_iff in Hcs as [callee [<- _]]. simpl.
    split; [reflexivity|]. split; [lia|auto].
Qed.

End ExParser.

Module ExTestFiles.
Import PyStr Graph TestFiles Invariants ExtraDefs.
Local Open Scope Z_scope.

Lemma fold_test_files files : forall acc,
  fold_left (fun acc f => if is_test_path f then (acc ++ [f])%list else acc) files acc =
  (acc ++ filter is_test_path files)%list.
Proof.
  induction files as [|f r IH]; intros acc; simpl; [rewrite app_nil_r; reflexivity|].
  rewrite IH. destruct (is_test_path f); [rewrite <- app_assoc; reflexivity|reflexivity].
Qed.

Lemma string_ltb_asym a b : String.ltb a b = true -> String.ltb b a = false.
Proof.
  unfold String.ltb. rewrite String.compare_antisym. destruct (String.compare b a); simpl; congruence.
Qed.

(** Property X20: _filter_test_files returns exactly the paths that contain a
    test pattern, case-insensitively, with duplicates kept, sorted in
    ascending order. *)
Theorem filter_test_files_spec files :
  Permutation (filter_test_files files) (filter is_test_path files) /\
  Sorted (fun a b => String.leb a b = true) (filter_test_files files).
Proof.
  unfold filter_test_files. rewrite fold_test_files. simpl. split.
  - pose proof (Proofs.fold_insert_perm (fun s : string => s) String.ltb (filter is_test_path files) []) as H.
    rewrite app_nil_r in H. exact H.
  - apply (Proofs.sorted_weaken (not_after (fun s : string => s) String.ltb)).
    + intros a b H. unfold not_after in H. unfold String.leb.
      unfold String.ltb in H. rewrite String.compare_antisym in H.
      destruct (String.compare a b); simpl in H; congruence.
    + apply Proofs.sort_by_sorted. exact string_ltb_asym.
Qed.

End ExTestFiles.

Module ExImpact.
Import PyStr Graph Impact ExtraDefs.
Local Open Scope Z_scope.

Lemma removelast_prefix {A} (l : list A) : removelast l = firstn (pred (List.length l)) l.
Proof. apply removelast_firstn_len. Qed.

Lemma prefix_compose {A} (l l1 l2 : list A) :
  l1 = firstn (List.length l1) l -> l2 = firstn (List.length l2) l1 -> l2 = firstn (List.length l2) l.
Proof.
  intros H1 H2. rewrite H2 at 1. rewrite H1 at 1. rewrite firstn_firstn.
  f_equal. pose proof (f_equal (@List.length A) H2) as H. rewrite length_firstn in H. lia.
Qed.

Lemma trim_files_spec n b : forall p,
  let '(d, p') := trim_files n b p in
  changed_items p' = changed_items p /\ affected_symbols p' = affected_symbols p /\
  affected_tests p' = affected_tests p /\ ranked_inspection p' = ranked_inspection p /\
  affected_files p' = firstn (List.length (affected_files p')) (affected_files p) /\
  (Nat.min 15 (List.length (affected_files p)) <= List.length (affected_files p'))%nat.
Proof.
  induction n as [|k IH]; intros p; cbn [trim_files].
  - repeat split; [symmetry; apply firstn_all|lia].
  - destruct (15 <? List.length (affected_files p))%nat eqn:E; [|repeat split; [symmetry; apply firstn_all|lia]].
    apply Nat.ltb_lt in E.
    assert (Hp' : affected_files (set_files p (removelast (affected_files p))) =
                  firstn (pred (List.length (affected_files p))) (affected_files p))
      by apply removelast_prefix.
    assert (Hl' : List.length (affected_files (set_files p (removelast (affected_files p)))) =
                  pred (List.length (affected_files p)))
      by (rewrite Hp', length_firstn; lia).
    destruct (fits (set_files p (removelast (affected_files p))) b).
    + cbn [changed_items affected_symbols affected_tests ranked_inspection set_files].
      repeat split; [rewrite Hl'; exact Hp'|lia].
    + specialize (IH (set_files p (removelast (affected_files p)))).
      destruct (trim_files k b (set_files p (removelast (affected_files p)))) as [d p''].
      destruct IH as [H1 [H2 [H3 [H4 [H5 H6]]]]]. cbn [changed_items affected_symbols affected_tests ranked_inspection set_files] in H1, H2, H3, H4.
      repeat split; try assumption.
      * apply (prefix_compose _ (affected_files (set_files p (removelast (affected_files p))))); [|exact H5].
        rewrite Hl'. exact Hp'.
      * rewrite Hl' in H6. lia.
Qed.

Lemma trim_ranked_spec n b : forall p,
  let '(d, p') := trim_ranked n b p in
  changed_items p' = changed_items p /\ affected_symbols p' = affected_symbols p /\
  affected_tests p' = affected_tests p /\ affected_files p' = affected_files p /\
  ranked_inspection p' = firstn (List.length (ranked_inspection p')) (ranked_inspection p) /\
  (Nat.min 10 (List.length (ranked_inspection p)) <= List.length (ranked_inspection p'))%nat.
Proof.
  induction n as [|k IH]; intros p; cbn [trim_ranked].
  - repeat split; [symmetry; apply firstn_all|lia].
  - destruct (10 <? List.length (ranked_inspection p))%nat eqn:E; [|repeat split; [symmetry; apply firstn_all|lia]].
    apply Nat.ltb_lt in E.
    assert (Hp' : ranked_inspection (set_ranked p (removelast (ranked_inspection p))) =
                  firstn (pred (List.length (ranked_inspection p))) (ranked_inspection p))
      by apply removelast_prefix.
    assert (Hl' : List.length (ranked_inspection (set_ranked p (removelast (ranked_inspection p)))) =
                  pred (List.length (ranked_inspection p)))
      by (rewrite Hp', length_firstn; lia).
    destruct (fits (set_ranked p (removelast (ranked_inspection p))) b).
    + cbn [changed_items affected_symbols affected_tests affected_files set_ranked].
      repeat split; [rewrite Hl'; exact Hp'|lia].
    + specialize (IH (set_ranked p (removelast (ranked_inspection p)))).
      destruct (trim_ranked k b (set_ranked p (removelast (ranked_inspection p)))) as [d p''].
      destruct IH as [H1 [H2 [H3 [H4 [H5 H6]]]]].
      cbn [changed_items affected_symbols affected_tests affected_files set_ranked] in H1, H2, H3, H4.
      repeat split; try assumption.
      * apply (prefix_compose _ (ranked_inspection (set_ranked p (removelast (ranked_inspection p))))); [|exact H5].
        rewrite Hl'. exact Hp'.
      * rewrite Hl' in H6. lia.
Qed.

Lemma fits_set_symbols p l b : fits (set_symbols p l) b = fits p b.
Proof. reflexivity. Qed.

Lemma trim_symbols_nofit b n : forall p, fits p b = false ->
  (List.length (affected_symbols p) - 20 <= n)%nat ->
  trim_symbols n b p = (false, set_symbols p (firstn 20 (affected_symbols p))).
Proof.
  induction n as [|k IH]; intros p Hf Hn; cbn [trim_symbols].
  - f_equal. destruct p as [c s f t r]. unfold set_symbols. cbn [affected_symbols] in *.
    rewrite firstn_all2 by lia. reflexivity.
  - destruct (20 <? List.length (affected_symbols p))%nat eqn:E.
    + apply Nat.ltb_lt in E. rewrite fits_set_symbols, Hf. rewrite IH.
      * f_equal. unfold set_symbols. cbn [affected_symbols changed_items affected_files affected_tests ranked_inspection].
        rewrite firstn_removelast by exact E. reflexivity.
      * rewrite fits_set_symbols. exact Hf.
      * cbn [affected_symbols set_symbols]. rewrite removelast_prefix, length_firstn. lia.
    + apply Nat.ltb_ge in E. f_equal. destruct p as [c s f t r]. unfold set_symbols. cbn [affected_symbols] in *.
      rewrite firstn_all2 by lia. reflexivity.
Qed.

(** Property X21: An Impact pack within its budget is returned unchanged. An
    over-budget pack keeps its changed items and tests, and its affected
    symbols are cut to exactly the first 20: to_text never prints them, so
    dropping them never brings the pack within budget. Files and ranked
    items are cut to prefixes of at least min(15, n) and min(10, n) entries. *)
Theorem enforce_budget_spec p budget :
  (fits p budget = true -> enforce_budget p budget = p) /\
  (fits p budget = false ->
     let p' := enforce_budget p budget in
     changed_items p' = changed_items p /\ affected_tests p' = affected_tests p /\
     affected_symbols p' = firstn 20 (affected_symbols p) /\
     affected_files p' = firstn (List.length (affected_files p')) (affected_files p) /\
     (Nat.min 15 (List.length (affected_files p)) <= List.length (affected_files p'))%nat /\
     ranked_inspection p' = firstn (List.length (ranked_inspection p')) (ranked_inspection p) /\
     (Nat.min 10 (List.length (ranked_inspection p)) <= List.length (ranked_inspection p'))%nat).
Proof.
  unfold enforce_budget, fits. split; intros Hf.
  - apply Z.leb_le in Hf. replace (budget <? Tokens.estimate_tokens (to_text p) true) with false
      by (symmetry; apply Z.ltb_ge; exact Hf). reflexivity.
  - pose proof Hf as Hf'. apply Z.leb_gt in Hf. apply Z.ltb_lt in Hf. rewrite Hf. cbv zeta.
    unfold truncate_pack. rewrite trim_symbols_nofit by (exact Hf' || lia).
    set (p1 := set_symbols p (firstn 20 (affected_symbols p))).
    pose proof (trim_files_spec (List.length (affected_files p1)) budget p1) as Hfiles.
    destruct (trim_files (List.length (affected_files p1)) budget p1) as [d2 p2].
    destruct Hfiles as [F1 [F2 [F3 [F4 [F5 F6]]]]].
    destruct d2.
    + rewrite F1, F2, F3, F4. subst p1. cbn [changed_items affected_tests affected_symbols affected_files ranked_inspection set_symbols] in *.
      repeat split; [exact F5|exact F6|symmetry; apply firstn_all|lia].
    + pose proof (trim_ranked_spec (List.length (ranked_inspection p2)) budget p2) as Hr.
      destruct (trim_ranked (List.length (ranked_inspection p2)) budget p2) as [d3 p3]. cbn [snd].
      destruct Hr as [R1 [R2 [R3 [R4 [R5 R6]]]]].
      rewrite R1, R2, R3, R4, F1, F2, F3. rewrite F4 in R5, R6. subst p1.
      cbn [changed_items affected_tests affected_symbols affected_files ranked_inspection set_symbols] in *.
      repeat split; assumption.
Qed.

End ExImpact.

Module ExZoom.
Import PyStr Zoom Inputs ExtraDefs.
Local Open Scope Z_scope.

Lemma same_except_code_refl p : same_except_code p p.
Proof. repeat split. Qed.

Lemma same_except_code_set p c q : same_except_code p q -> same_except_code p (set_code_slice q c).
Proof. unfold same_except_code, set_code_slice. cbn. tauto. Qed.

Lemma code_loop_same fuel b : forall s d p1,
  code_loop fuel b s = Some (d, p1) -> same_except_code (cl_pack s) p1.
Proof.
  induction fuel as [|f IH]; intros s d p1 H; cbn [code_loop] in H; [discriminate|].
  unfold code_step in H.
  destruct (max_code_lines s <? Z.of_nat (List.length (code_lines s))).
  - destruct (fits _ b).
    + injection H as _ <-. apply same_except_code_set, same_except_code_refl.
    + apply IH in H. cbn [cl_pack] in H. unfold same_except_code, set_code_slice in *. cbn in H. tauto.
  - injection H as _ <-. apply same_except_code_refl.
Qed.

Lemma trim_callers_spec n b : forall p,
  let '(d, p') := trim_callers n b p in
  zp_name p' = zp_name p /\ zp_file_path p' = zp_file_path p /\ zp_kind p' = zp_kind p /\
  zp_line_start p' = zp_line_start p /\ signature p' = signature p /\ docstring p' = docstring p /\
  callees p' = callees p /\ file_context p' = file_context p /\
  callers p' = firstn (List.length (callers p')) (callers p) /\
  (Nat.min 3 (List.length (callers p)) <= List.length (callers p'))%nat.
Proof.
  induction n as [|k IH]; intros p; cbn [trim_callers].
  - repeat split; [symmetry; apply firstn_all|lia].
  - destruct (3 <? List.length (callers p))%nat eqn:E; [|repeat split; [symmetry; apply firstn_all|lia]].
    apply Nat.ltb_lt in E.
    assert (Hp' : callers (set_callers p (removelast (callers p))) =
                  firstn (pred (List.length (callers p))) (callers p))
      by apply removelast_firstn_len.
    assert (Hl' : List.length (callers (set_callers p (removelast (callers p)))) = pred (List.length (callers p)))
      by (rewrite Hp', length_firstn; lia).
    destruct (fits (set_callers p (removelast (callers p))) b).
    + cbn [zp_name zp_file_path zp_kind zp_line_start signature docstring callees file_context set_callers].
      repeat split; [rewrite Hl'; exact Hp'|lia].
    + specialize (IH (set_callers p (removelast (callers p)))).
      destruct (trim_callers k b (set_callers p (removelast (callers p)))) as [d p''].
      destruct IH as [H1 [H2 [H3 [H4 [H5 [H6 [H7 [H8 [H9 H10]]]]]]]]].
      cbn [zp_name zp_file_path zp_kind zp_line_start signature docstring callees file_context set_callers]
        in H1, H2, H3, H4, H5, H6, H7, H8.
      repeat split; try assumption.
      * apply (ExImpact.prefix_compose _ (callers (set_callers p (removelast (callers p))))); [|exact H9].
        rewrite Hl'. exact Hp'.
      * rewrite Hl' in H10. lia.
Qed.

Lemma trim_callees_spec n b : forall p,
  let '(d, p') := trim_callees n b p in
  zp_name p' = zp_name p /\ zp_file_path p' = zp_file_path p /\ zp_kind p' = zp_kind p /\
  zp_line_start p' = zp_line_start p /\ signature p' = signature p /\ docstring p' = docstring p /\
  callers p' = callers p /\ file_context p' = file_context p /\
  callees p' = firstn (List.length (callees p')) (callees p) /\
  (Nat.min 3 (List.length (callees p)) <= List.length (callees p'))%nat.
Proof.
  induction n as [|k IH]; intros p; cbn [trim_callees].
  - repeat split; [symmetry; apply firstn_all|lia].
  - destruct (3 <? List.length (callees p))%nat eqn:E; [|repeat split; [symmetry; apply firstn_all|lia]].
    apply Nat.ltb_lt in E.
    assert (Hp' : callees (set_callees p (removelast (callees p))) =
                  firstn (pred (List.length (callees p))) (callees p))
      by apply removelast_firstn_len.
    assert (Hl' : List.length (callees (set_callees p (removelast (callees p)))) = pred (List.length (callees p)))
      by (rewrite Hp', length_firstn; lia).
    destruct (fits (set_callees p (removelast (callees p))) b).
    + cbn [zp_name zp_file_path zp_kind zp_line_start signature docstring callers file_context set_callees].
      repeat split; [rewrite Hl'; exact Hp'|lia].
    + specialize (IH (set_callees p (removelast (callees p)))).
      destruct (trim_callees k b (set_callees p (removelast (callees p)))) as [d p''].
      destruct IH as [H1 [H2 [H3 [H4 [H5 [H6 [H7 [H8 [H9 H10]]]]]]]]].
      cbn [zp_name zp_file_path zp_kind zp_line_start signature docstring callers file_context set_callees]
        in H1, H2, H3, H4, H5, H6, H7, H8.
      repeat split; try assumption.
      * apply (ExImpact.prefix_compose _ (callees (set_callees p (removelast (callees p))))); [|exact H9].
        rewrite Hl'. exact Hp'.
      * rewrite Hl' in H10. lia.
Qed.

(** Property X22: When the Zoom _truncate_pack returns, the name, file path,
    kind, line, signature and file context are unchanged. Callers and
    callees are prefixes of the originals, each with at least min(3, n)
    entries. The docstring is either unchanged or dropped. *)
Theorem zoom_truncate_pack_keeps fuel p budget p' :
  truncate_pack fuel p budget = Some p' ->
  zp_name p' = zp_name p /\ zp_file_path p' = zp_file_path p /\ zp_kind p' = zp_kind p /\
  zp_line_start p' = zp_line_start p /\ signature p' = signature p /\ file_context p' = file_context p /\
  (docstring p' = docstring p \/ docstring p' = None) /\
  callers p' = firstn (List.length (callers p')) (callers p) /\
  (Nat.min 3 (List.length (callers p)) <= List.length (callers p'))%nat /\
  callees p' = firstn (List.length (callees p')) (callees p) /\
  (Nat.min 3 (List.length (callees p)) <= List.length (callees p'))%nat.
Proof.
  unfold truncate_pack. intros H.
  destruct (code_loop fuel budget _) as [[d1 p1]|] eqn:Ec; [|discriminate].
  apply code_loop_same in Ec. cbn [cl_pack] in Ec.
  destruct Ec as [C1 [C2 [C3 [C4 [C5 [C6 [C7 [C8 C9]]]]]]]].
  destruct d1.
  - injection H as <-. repeat split; try assumption; [left; assumption| | | |];
      [rewrite C7; symmetry; apply firstn_all|rewrite C7; lia|rewrite C8; symmetry; apply firstn_all|rewrite C8; lia].
  - pose proof (trim_callers_spec (List.length (callers p1)) budget p1) as T.
    destruct (trim_callers (List.length (callers p1)) budget p1) as [d2 p2].
    destruct T as [T1 [T2 [T3 [T4 [T5 [T6 [T7 [T8 [T9 T10]]]]]]]]].
    rewrite C7 in T9, T10.
    destruct d2.
    + injection H as <-. repeat split; try congruence; [left; congruence| |]; rewrite T7, C8;
        [symmetry; apply firstn_all|lia].
    + pose proof (trim_callees_spec (List.length (callees p2)) budget p2) as U.
      destruct (trim_callees (List.length (callees p2)) budget p2) as [d3 p3].
      destruct U as [U1 [U2 [U3 [U4 [U5 [U6 [U7 [U8 [U9 U10]]]]]]]]].
      rewrite T7, C8 in U9, U10.
      assert (Hfin : p' = p3 \/ p' = drop_docstring p3)
        by (destruct d3; [injection H as <-; left; reflexivity|
                          destruct (negb (fits p3 budget)); injection H as <-; [right|left]; reflexivity]).
      destruct Hfin as [->| ->]; [|unfold drop_docstring; cbn [zp_name zp_file_path zp_kind zp_line_start
                                     signature file_context docstring callers callees]];
        repeat split; try congruence; [left; congruence|right; reflexivity].
Qed.

Lemma zoom_truncate_pack_keeps_witness :
  exists p', truncate_pack 100 zoom60 60 = Some p' /\
  zp_name p' = zp_name zoom60 /\ zp_file_path p' = zp_file_path zoom60 /\ zp_kind p' = zp_kind zoom60 /\
  zp_line_start p' = zp_line_start zoom60 /\ signature p' = signature zoom60 /\
  file_context p' = file_context zoom60 /\
  (docstring p' = docstring zoom60 \/ docstring p' = None) /\
  callers p' = firstn (List.length (callers p')) (callers zoom60) /\
  (Nat.min 3 (List.length (callers zoom60)) <= List.length (callers p'))%nat /\
  callees p' = firstn (List.length (callees p')) (callees zoom60) /\
  (Nat.min 3 (List.length (callees zoom60)) <= List.length (callees p'))%nat.
Proof.
  eexists. split; [vm_compute; reflexivity|]. apply (zoom_truncate_pack_keeps 100 zoom60 60).
  vm_compute. reflexivity.
Defined.

End ExZoom.

Module ExIndexer.
Import PyStr Db Indexer Inputs Invariants ExtraDefs.
Local Open Scope Z_scope.

Lemma add_symbols_counts fid syms smap st stats st' stats' :
  add_symbols fid syms smap st stats = Some (st', stats') -> file_counts stats' = file_counts stats.
Proof.
  revert smap st stats. induction syms as [|s rest IH]; intros smap st stats H; cbn [add_symbols] in H.
  - injection H as _ <-. reflexivity.
  - destruct (add_symbol _ _ _ _ _ _ _ _ _ _ st) as [sid st1|e]; [|discriminate].
    apply IH in H. rewrite H. reflexivity.
Qed.

Lemma index_file_counts sha256 now fi st stats :
  file_counts (snd (index_file sha256 now fi st stats)) = file_counts stats.
Proof.
  unfold index_file. destruct (compute_file_hash sha256 fi) as [h|]; [|reflexivity].
  destruct (add_file _ _ _ _ _ _ st) as [fid st1].
  destruct (add_symbols _ _ _ _ _) as [[st4 stats2]|] eqn:E; [|reflexivity].
  apply add_symbols_counts in E. cbn [snd]. rewrite E. reflexivity.
Qed.

Lemma index_file_rows sha256 now fi st stats r :
  In r (files (fst (index_file sha256 now fi st stats))) -> In r (files st) \/ f_path r = fi_path fi.
Proof.
  destruct (fi_content fi) as [c|] eqn:Hc.
  - apply (Proofs.index_file_facts sha256 now fi st stats c Hc).
  - unfold index_file, compute_file_hash. rewrite Hc. cbn. auto.
Qed.

Lemma process_counts sha256 now force fis : forall st stats st' stats',
  process sha256 now force fis st stats = Some (st', stats') ->
  files_scanned stats' = files_scanned stats /\ files_deleted stats' = files_deleted stats /\
  files_new stats' + files_changed stats' + files_unchanged stats' =
    files_new stats + files_changed stats + files_unchanged stats + Z.of_nat (List.length fis) /\
  (force = true -> files_unchanged stats' = files_unchanged stats).
Proof.
  induction fis as [|fi rest IH]; intros st stats st' stats' H; cbn [process] in H.
  - injection H as _ <-. cbn [List.length]. lia.
  - destruct (if force then Some true else should_reindex sha256 fi (get_file (fi_path fi) st))
      as [[|]|] eqn:Eg; [| |discriminate].
    + set (s1 := match get_file (fi_path fi) st with Some _ => inc_changed stats | None => inc_new stats end) in H.
      pose proof (index_file_counts sha256 now fi st s1) as Hc.
      destruct (index_file sha256 now fi st s1) as [st1 stats1]. cbn [snd] in Hc.
      apply IH in H. unfold file_counts in Hc. injection Hc as C1 C2 C3 C4 C5.
      assert (Hs : files_scanned s1 = files_scanned stats /\ files_deleted s1 = files_deleted stats /\
                   files_new s1 + files_changed s1 + files_unchanged s1 =
                     files_new stats + files_changed stats + files_unchanged stats + 1 /\
                   files_unchanged s1 = files_unchanged stats)
        by (subst s1; destruct (get_file (fi_path fi) st); cbn; lia).
      cbn [List.length]. rewrite Nat2Z.inj_succ. destruct H as [H1 [H2 [H3 H4]]].
      repeat split; try lia. intros Hf. specialize (H4 Hf). lia.
    + destruct force; [discriminate|]. apply IH in H. cbn in H. cbn [List.length].
      rewrite Nat2Z.inj_succ. destruct H as [H1 [H2 [H3 H4]]]. repeat split; try lia.
Qed.

Lemma process_rows sha256 now force fis : forall st stats st' stats',
  process sha256 now force fis st stats = Some (st', stats') ->
  forall r, In r (files st') -> In r (files st) \/ In (f_path r) (map fi_path fis).
Proof.
  induction fis as [|fi rest IH]; intros st stats st' stats' H r Hr; cbn [process] in H.
  - injection H as <- _. auto.
  - destruct (if force then Some true else should_reindex sha256 fi (get_file (fi_path fi) st))
      as [[|]|]; [| |discriminate].
    + set (s1 := match get_file (fi_path fi) st with Some _ => inc_changed stats | None => inc_new stats end) in H.
      pose proof (index_file_rows sha256 now fi st s1) as Hi.
      destruct (index_file sha256 now fi st s1) as [st1 stats1]. cbn [fst] in Hi.
      destruct (IH _ _ _ _ H r Hr) as [H1|H1].
      * destruct (Hi r H1) as [H2|H2]; [left; exact H2|right; left; symmetry; exact H2].
      * right. right. exact H1.
    + destruct (IH _ _ _ _ H r Hr) as [H1|H1]; [left; exact H1|right; right; exact H1].
Qed.

Lemma remove_stale_counts current recs : forall st stats st' stats',
  remove_stale current recs st stats = (st', stats') ->
  files_scanned stats' = files_scanned stats /\ files_new stats' = files_new stats /\
  files_changed stats' = files_changed stats /\ files_unchanged stats' = files_unchanged stats /\
  files_deleted stats' = files_deleted stats + Z.of_nat (List.length (stale_rows current recs)).
Proof.
  induction recs as [|r rest IH]; intros st stats st' stats' H; cbn [remove_stale] in H.
  - injection H as _ <-. cbn. lia.
  - unfold stale_rows. cbn [filter]. destruct (existsb (String.eqb (f_path r)) current); cbn [negb].
    + apply IH in H. exact H.
    + apply IH in H. cbn [List.length]. rewrite Nat2Z.inj_succ. cbn in H. fold (stale_rows current rest). lia.
Qed.

Lemma remove_stale_paths current st stats st' stats' :
  remove_stale current (get_all_files st) st stats = (st', stats') ->
  forall r, In r (files st') -> In (f_path r) current.
Proof.
  intros H r Hr. destruct (Proofs.remove_stale_rows _ _ _ _ _ _ H) as [Hrows _].
  destruct (Hrows r Hr) as [H1 H2]. apply H2. exact H1.
Qed.

(** Property X23: After a successful run, files_scanned is the number of scanned
    files, and files_new + files_changed + files_unchanged grew by exactly
    files_scanned over their values on entry ([self.stats] is not reset
    between runs on one Indexer); with force, files_unchanged is unchanged.
    On a fresh Indexer (counters at 0) the sum is files_scanned and, with
    force, files_unchanged is 0. *)
Theorem run_file_counts sha256 now force files0 st stats_in stats st' :
  run sha256 now force files0 st stats_in = Some (stats, st') ->
  files_scanned stats = Z.of_nat (List.length files0) /\
  files_new stats + files_changed stats + files_unchanged stats =
    files_new stats_in + files_changed stats_in + files_unchanged stats_in + files_scanned stats /\
  (force = true -> files_unchanged stats = files_unchanged stats_in) /\
  (stats_in = stats0 ->
     files_new stats + files_changed stats + files_unchanged stats = files_scanned stats /\
     (force = true -> files_unchanged stats = 0)).
Proof.
  unfold run. intros H.
  destruct (remove_stale _ _ st _) as [st1 stats1] eqn:E1.
  destruct (process sha256 now force files0 st1 stats1) as [[st2 stats2]|] eqn:E2; [|discriminate].
  injection H as <- _.
  apply remove_stale_counts in E1. apply process_counts in E2. cbn in E1.
  destruct E2 as [H1 [H2 [H3 H4]]].
  assert (Hu : force = true -> files_unchanged stats2 = files_unchanged stats_in)
    by (intros Hf; specialize (H4 Hf); lia).
  split; [lia|]. split; [lia|]. split; [exact Hu|].
  intros ->. cbn in E1, Hu. split; [lia|]. intros Hf. specialize (Hu Hf). lia.
Qed.

(** Property X24: After a successful run, files_deleted grew by exactly the
    number of stored file rows whose path was not scanned ([self.stats] is
    not reset between runs), and every file row left in the store has a
    scanned path. *)
Theorem run_stale_rows sha256 now force files0 st stats_in stats st' :
  run sha256 now force files0 st stats_in = Some (stats, st') ->
  files_deleted stats =
    files_deleted stats_in + Z.of_nat (List.length (stale_rows (map fi_path files0) (files st))) /\
  forall r, In r (files st') -> In (f_path r) (map fi_path files0).
Proof.
  unfold run. intros H.
  destruct (remove_stale _ _ st _) as [st1 stats1] eqn:E1.
  destruct (process sha256 now force files0 st1 stats1) as [[st2 stats2]|] eqn:E2; [|discriminate].
  injection H as <- <-. split.
  - pose proof (remove_stale_counts _ _ _ _ _ _ E1) as C1. apply process_counts in E2.
    cbn in C1. unfold get_all_files in C1. destruct E2 as [H1 [H2 _]]. lia.
  - intros r Hr. unfold update_index_stats, set_meta, with_meta in Hr. cbn [files] in Hr.
    destruct (process_rows _ _ _ _ _ _ _ _ E2 r Hr) as [H1|H1]; [|exact H1].
    exact (remove_stale_paths _ _ _ _ _ E1 r H1).
Qed.

(** Property X25: After a successful run over readable files with distinct
    paths, every scanned file has a stored row whose mtime, size and content
    hash match the file. *)
Theorem run_synced sha256 now force files0 st stats_in stats st' :
  NoDup (map fi_path files0) -> (forall fi, In fi files0 -> fi_content fi <> None) ->
  run sha256 now force files0 st stats_in = Some (stats, st') ->
  forall fi, In fi files0 -> synced sha256 fi st'.
Proof.
  intros Hnd Hrd H. unfold run in H.
  destruct (remove_stale _ _ st _) as [st1 stats1] eqn:E1.
  destruct (process sha256 now force files0 st1 stats1) as [[st2 stats2]|] eqn:E2; [|discriminate].
  injection H as _ <-.
  destruct (Proofs.process_first_run _ _ _ _ _ _ _ _ Hnd Hrd E2) as [Hsy _].
  intros fi Hin. exact (Hsy fi Hin).
Qed.

Lemma run_file_counts_witness :
  exists stats st', run m_py_sha256 1700000001 false [m_py; locked_py] cycle_store stats_prev = Some (stats, st') /\
  files_scanned stats = Z.of_nat (List.length [m_py; locked_py]) /\
  files_new stats + files_changed stats + files_unchanged stats =
    files_new stats_prev + files_changed stats_prev + files_unchanged stats_prev + files_scanned stats /\
  (false = true -> files_unchanged stats = files_unchanged stats_prev) /\
  (stats_prev = stats0 ->
     files_new stats + files_changed stats + files_unchanged stats = files_scanned stats /\
     (false = true -> files_unchanged stats = 0)).
Proof.
  do 2 eexists. split; [vm_compute; reflexivity|].
  eapply (run_file_counts m_py_sha256 1700000001 false [m_py; locked_py] cycle_store stats_prev).
  vm_compute. reflexivity.
Defined.

Lemma run_stale_rows_witness :
  exists stats st', run m_py_sha256 1700000001 true [m_py] cycle_store stats_prev = Some (stats, st') /\
  files_deleted stats =
    files_deleted stats_prev + Z.of_nat (List.length (stale_rows (map fi_path [m_py]) (files cycle_store))) /\
  forall r, In r (files st') -> In (f_path r) (map fi_path [m_py]).
Proof.
  do 2 eexists. split; [vm_compute; reflexivity|].
  eapply (run_stale_rows m_py_sha256 1700000001 true [m_py] cycle_store stats_prev).
  vm_compute. reflexivity.
Defined.

Lemma run_synced_witness :
  exists stats st', run m_py_sha256 1700000001 false [m_py] cycle_store stats0 = Some (stats, st') /\
  synced m_py_sha256 m_py st'.
Proof.
  do 2 eexists. split; [vm_compute; reflexivity|].
  eapply (run_synced m_py_sha256 1700000001 false [m_py] cycle_store stats0).
  - constructor; [intros []|constructor].
  - intros fi [<-|[]]. discriminate.
  - vm_compute. reflexivity.
  - left. reflexivity.
Defined.

End ExIndexer.
